(** * py4DSTEM: DataObject and DataObjectTracker

    A shallow embedding of [py4DSTEM/process/datastructure/dataobject.py].

    Python objects live in a heap: DataObject instances and
    DataObjectTracker instances are heap cells addressed by references, so
    that the aliasing between a DataObject's parent list and a tracker's
    object list is the one of the source.  Methods are computations in a
    state-and-exception monad over that heap; the process-wide
    [logger.log_index] and the standard output are part of the state. *)

From stdpp Require Import gmap strings list fin_maps.

Open Scope string_scope.
Open Scope list_scope.
Open Scope Z_scope.

(** ** Data model *)

(** References to DataObject instances and to DataObjectTracker instances. *)
Abbreviation ref := nat (only parsing).
Abbreviation tref := nat (only parsing).

(** A class object.  Classes are compared by identity: two values stand
    for the same class exactly when they are equal, and [class_id] tells
    apart two classes that carry the same [__name__], [class_name]. *)
Record pyclass := mkClass {
  class_id : nat;
  class_name : string
}.

#[global] Instance pyclass_eq_dec : EqDecision pyclass.
Proof. solve_decision. Defined.

(** The attributes of a DataObject instance.  [cls] is the instance's class
    ([type(self)]).  [modification_log] is [None] until [__init__] has
    assigned the attribute; [dataobjecttracker] is [None] for an instance
    without that attribute. *)
Record DataObject := mkDataObject {
  cls : pyclass;
  save_behavior : bool;
  name : string;
  parents_and_save_behavior : list (ref * bool);
  modification_log : option (list Z);
  dataobjecttracker : option tref
}.

(** A tuple [(index, name, objecttype, dataobject)] of a tracker's list. *)
Record entry := mkEntry {
  e_index : nat;
  e_name : string;
  e_type : pyclass;
  e_obj : ref
}.

Record DataObjectTracker := mkTracker {
  rawdatacube : ref;
  dataobject_list : list entry
}.

(** What [print] writes: the header line or one row of the listing. *)
Inductive line :=
| Header
| Row (index : nat) (nm : string) (tname : string).

Record store := mkStore {
  objs : gmap nat DataObject;
  trackers : gmap nat DataObjectTracker;
  log_index : Z;
  stdout : list line
}.

(** ** The monad: state, exceptions and fuel *)

Inductive exn :=
| TypeError
| AssertionError
| AttributeError
| IndexError
| ValueError.

Inductive outcome (A : Type) :=
| Ret (a : A)
| Raise (e : exn)
| OutOfFuel.

Arguments Ret {A} a.
Arguments Raise {A} e.
Arguments OutOfFuel {A}.

Definition M (A : Type) : Type := store -> store * outcome A.

Definition ret {A} (a : A) : M A := fun s => (s, Ret a).

Definition raise {A} (e : exn) : M A := fun s => (s, Raise e).

Definition out_of_fuel {A} : M A := fun s => (s, OutOfFuel).

Definition bind {A B} (m : M A) (k : A -> M B) : M B :=
  fun s =>
    match m s with
    | (s', Ret a) => k a s'
    | (s', Raise e) => (s', Raise e)
    | (s', OutOfFuel) => (s', OutOfFuel)
    end.

Notation "x <~ m ;; k" := (bind m (fun x => k))
  (at level 100, m at next level, right associativity).
Notation "m ;;; k" := (bind m (fun _ => k))
  (at level 100, right associativity).

(** [try: m except AttributeError: pass] *)
Definition try_AttributeError {A} (m : M A) : M (option A) :=
  fun s =>
    match m s with
    | (s', Ret a) => (s', Ret (Some a))
    | (s', Raise AttributeError) => (s', Ret None)
    | (s', Raise e) => (s', Raise e)
    | (s', OutOfFuel) => (s', OutOfFuel)
    end.

(** [assert b] *)
Definition py_assert (b : bool) : M unit :=
  if b then ret tt else raise AssertionError.

(** [for x in l: body x] *)
Fixpoint for_each {A} (l : list A) (body : A -> M unit) : M unit :=
  match l with
  | [] => ret tt
  | x :: l' => body x ;;; for_each l' body
  end.

(** [[f x for x in l]] for an effectful [f] *)
Fixpoint map_M {A B} (f : A -> M B) (l : list A) : M (list B) :=
  match l with
  | [] => ret []
  | x :: l' => y <~ f x ;; ys <~ map_M f l' ;; ret (y :: ys)
  end.

(** ** Heap access *)

(** Reading an attribute of a reference that is no DataObject instance
    raises AttributeError. *)
Definition get_obj (r : ref) : M DataObject :=
  fun s =>
    match objs s !! r with
    | Some o => (s, Ret o)
    | None => (s, Raise AttributeError)
    end.

Definition upd_obj (s : store) (r : ref) (o : DataObject) : store :=
  mkStore (<[r := o]> (objs s)) (trackers s) (log_index s) (stdout s).

Definition upd_tracker (s : store) (t : tref) (tr : DataObjectTracker)
  : store :=
  mkStore (objs s) (<[t := tr]> (trackers s)) (log_index s) (stdout s).

Definition set_obj (r : ref) (o : DataObject) : M unit :=
  fun s => (upd_obj s r o, Ret tt).

Definition get_tracker (t : tref) : M DataObjectTracker :=
  fun s =>
    match trackers s !! t with
    | Some tr => (s, Ret tr)
    | None => (s, Raise AttributeError)
    end.

Definition set_tracker (t : tref) (tr : DataObjectTracker) : M unit :=
  fun s => (upd_tracker s t tr, Ret tt).

Definition print (l : line) : M unit :=
  fun s => (mkStore (objs s) (trackers s) (log_index s) (stdout s ++ [l]),
            Ret tt).

(** ** Python primitives *)

(** [x in l] on a list of references: DataObject defines no [__eq__], so
    equality is identity. *)
Definition py_in (x : ref) (l : list ref) : bool :=
  existsb (fun y => bool_decide (x = y)) l.

(** [dataobject in l] where [l] holds 4-tuples: a tuple is neither
    identical nor equal to a DataObject instance, so every comparison of the
    scan is False. *)
Definition obj_in_tuples (x : ref) (l : list entry) : bool :=
  existsb (fun _ : entry => false) l.

Fixpoint first_index (x : ref) (l : list ref) : option nat :=
  match l with
  | [] => None
  | y :: l' => if bool_decide (x = y) then Some 0%nat
               else S <$> first_index x l'
  end.

(** [l.index] applied to the arguments [args]: exactly one argument is
    required here (the optional start and stop are never passed). *)
Definition list_index (l : list ref) (args : list ref) : M nat :=
  match args with
  | [x] => match first_index x l with
           | Some i => ret i
           | None => raise ValueError
           end
  | _ => raise TypeError
  end.

(** [l[index]] with Python's negative indices. *)
Definition py_getitem {A} (l : list A) (index : Z) : M A :=
  let n := Z.of_nat (length l) in
  let i := if index <? 0 then index + n else index in
  if (i <? 0) || (n <=? i) then raise IndexError
  else match l !! Z.to_nat i with
       | Some x => ret x
       | None => raise IndexError
       end.

(** [tup[1] = v] on a tuple: tuples do not support item assignment. *)
Definition tuple_setitem (tup : ref * bool) (v : bool) : M unit :=
  raise TypeError.

(** [needle in hay] on strings. *)
Fixpoint is_substring (needle hay : string) : bool :=
  String.prefix needle hay ||
  match hay with
  | EmptyString => false
  | String _ hay' => is_substring needle hay'
  end.

(** Keyword arguments [**kwargs]; only these two keys are ever looked up. *)
Record kwargs := mkKwargs {
  kw_name : option string;
  kw_save_behavior : option bool
}.

Definition no_kwargs : kwargs := mkKwargs None None.

(** ** class DataObject *)

Definition get_parent_list (self : ref) : M (list ref) :=
  o <~ get_obj self ;;
  ret (map fst (parents_and_save_behavior o)).

Definition has_parent (self : ref) (datacube : ref) : M bool :=
  ps <~ get_parent_list self ;;
  ret (py_in datacube ps).

Definition get_save_behavior (self : ref) (parent : ref) : M bool :=
  ps <~ get_parent_list self ;;
  py_assert (py_in parent ps) ;;;
  ps' <~ get_parent_list self ;;
  index <~ list_index ps' [parent] ;;
  o <~ get_obj self ;;
  tup <~ py_getitem (parents_and_save_behavior o) (Z.of_nat index) ;;
  ret (snd tup).

(** Line 100 calls [index()] without an argument; line 101 assigns to an
    item of a tuple. *)
Definition change_save_behavior (self : ref) (parent : ref) (sb : bool)
  : M unit :=
  ps <~ get_parent_list self ;;
  py_assert (py_in parent ps) ;;;
  ps' <~ get_parent_list self ;;
  index <~ list_index ps' [] ;;
  o <~ get_obj self ;;
  tup <~ py_getitem (parents_and_save_behavior o) (Z.of_nat index) ;;
  tuple_setitem tup sb.

Definition getattr_dataobjecttracker (r : ref) : M tref :=
  o <~ get_obj r ;;
  match dataobjecttracker o with
  | Some t => ret t
  | None => raise AttributeError
  end.

Definition option_to_list {A} (o : option A) : list A :=
  match o with Some x => [x] | None => [] end.

Definition get_dataobjecttrackers (self : ref) (dataobject : ref)
  : M (list tref) :=
  own <~ try_AttributeError (getattr_dataobjecttracker dataobject) ;;
  ps <~ get_parent_list dataobject ;;
  found <~ map_M (fun parent =>
                    try_AttributeError (getattr_dataobjecttracker parent)) ps ;;
  ret (option_to_list own ++ concat (map option_to_list found)).

Definition get_current_log_index : M Z :=
  fun s => (s, Ret (log_index s)).

Definition log_modification (self : ref) : M unit :=
  k <~ get_current_log_index ;;
  let index := k - 1 in
  o <~ get_obj self ;;
  match modification_log o with
  | Some l =>
      set_obj self (mkDataObject (cls o) (save_behavior o) (name o)
                      (parents_and_save_behavior o) (Some (l ++ [index]))
                      (dataobjecttracker o))
  | None => raise AttributeError
  end.

(** ** class DataObjectTracker, and the two mutually recursive methods *)

Definition contains_dataobject (self : tref) (dataobject : ref) : M bool :=
  tr <~ get_tracker self ;;
  ret (py_in dataobject (map e_obj (dataobject_list tr))).

Definition with_parent (o : DataObject) (p : ref * bool) : DataObject :=
  mkDataObject (cls o) (save_behavior o) (name o)
    (parents_and_save_behavior o ++ [p]) (modification_log o)
    (dataobjecttracker o).

Definition with_entry (tr : DataObjectTracker) (tup : entry)
  : DataObjectTracker :=
  mkTracker (rawdatacube tr) (dataobject_list tr ++ [tup]).

(** [self.parents_and_save_behavior.append(p)] *)
Definition append_parent (self : ref) (p : ref * bool) : M unit :=
  o <~ get_obj self ;;
  set_obj self (with_parent o p).

(** [self.dataobject_list.append(tup)] *)
Definition append_entry (self : tref) (tup : entry) : M unit :=
  tr <~ get_tracker self ;;
  set_tracker self (with_entry tr tup).

(** [new_parent fuel self parent extra kwargs] is the call
    [self.new_parent(parent, *extra, **kwargs)]: the signature
    [new_parent(self, parent, **kwargs)] takes no further positional
    argument, so a call with [extra] not empty raises TypeError before the
    body runs.  [new_dataobject fuel self dataobject kwargs] is
    [self.new_dataobject(dataobject, **kwargs)]. *)
Fixpoint new_parent (fuel : nat) (self : ref) (parent : option ref)
    (extra : list bool) (kw : kwargs) {struct fuel} : M unit :=
  match fuel with
  | O => out_of_fuel
  | S fuel' =>
      match extra with
      | _ :: _ => raise TypeError
      | [] =>
          sb <~ match kw_save_behavior kw with
                | Some b => ret b
                | None => o <~ get_obj self ;; ret (save_behavior o)
                end ;;
          match parent with
          | None => ret tt
          | Some parent =>
              ps <~ get_parent_list self ;;
              (if negb (py_in parent ps)
               then append_parent self (parent, sb)
               else change_save_behavior self parent sb) ;;;
              dataobjecttrackers <~ get_dataobjecttrackers self parent ;;
              for_each dataobjecttrackers (fun tracker =>
                c <~ contains_dataobject tracker self ;;
                if negb c
                then new_dataobject fuel' tracker self
                       (mkKwargs None (Some sb))
                else ret tt)
          end
      end
  end
with new_dataobject (fuel : nat) (self : tref) (dataobject : ref)
    (kw : kwargs) {struct fuel} : M unit :=
  match fuel with
  | O => out_of_fuel
  | S fuel' =>
      d <~ try_AttributeError (get_obj dataobject) ;;
      py_assert (bool_decide (is_Some d)) ;;;
      tr <~ get_tracker self ;;
      (if negb (obj_in_tuples dataobject (dataobject_list tr))
       then
         let index := length (dataobject_list tr) in
         nm <~ match kw_name kw with
               | Some n => ret n
               | None => o <~ get_obj dataobject ;; ret (name o)
               end ;;
         o <~ get_obj dataobject ;;
         let objecttype := cls o in
         append_entry self (mkEntry index nm objecttype dataobject)
       else ret tt) ;;;
      tr' <~ get_tracker self ;;
      h <~ has_parent dataobject (rawdatacube tr') ;;
      if negb h
      then match kw_save_behavior kw with
           | Some b => new_parent fuel' dataobject (Some (rawdatacube tr'))
                         [b] no_kwargs
           | None => new_parent fuel' dataobject (Some (rawdatacube tr'))
                       [] no_kwargs
           end
      else ret tt
  end.

(** [object.__new__]: a DataObject cell at a reference not yet in use. *)
Definition alloc_obj (o : DataObject) : M ref :=
  fun s =>
    let r := fresh (dom (objs s)) in
    (upd_obj s r o, Ret r).

Definition alloc_tracker (tr : DataObjectTracker) : M tref :=
  fun s =>
    let t := fresh (dom (trackers s)) in
    (upd_tracker s t tr, Ret t).

(** [DataObject.__init__(self, parent, save_behavior=True, name='')], run on
    a new instance of class [klass]; the result is the instance. *)
Definition DataObject_init (fuel : nat) (klass : pyclass)
    (parent : option ref) (sb : option bool) (nm : option string) : M ref :=
  self <~ alloc_obj (mkDataObject klass (default true sb) (default "" nm)
                       [] None None) ;;
  o <~ get_obj self ;;
  new_parent fuel self parent [] (mkKwargs None (Some (save_behavior o))) ;;;
  o' <~ get_obj self ;;
  set_obj self (mkDataObject (cls o') (save_behavior o') (name o')
                  (parents_and_save_behavior o') (Some [])
                  (dataobjecttracker o')) ;;;
  log_modification self ;;;
  ret self.

(** [DataObjectTracker.__init__(self, rawdatacube)] *)
Definition DataObjectTracker_init (rdc : ref) : M tref :=
  alloc_tracker (mkTracker rdc []).

(** ** The queries and their decorator *)

(** What a decorated query returns. *)
Inductive pyval :=
| VEntries (l : list entry)
| VObjs (l : list ref)
| VObj (r : ref)
| VNone.

(** The decorator [show_object_list].  With [show], the header is printed,
    then one row per tuple of the result; a result that is no list of tuples
    cannot be indexed or iterated by the loop. *)
Definition show_object_list (method : M pyval) (show : bool) : M pyval :=
  objectlist <~ method ;;
  if show
  then
    print Header ;;;
    match objectlist with
    | VEntries l =>
        for_each l (fun tup => print (Row (e_index tup) (e_name tup)
                                          (class_name (e_type tup))))
    | VObjs [] => ret tt
    | VObjs (_ :: _) | VObj _ | VNone => raise TypeError
    end ;;;
    ret VNone
  else ret objectlist.

Definition get_dataobjects (self : tref) : bool -> M pyval :=
  show_object_list
    (tr <~ get_tracker self ;;
     ret (VEntries (dataobject_list tr))).

Definition sort_dataobjects_by_name (self : tref) : bool -> M pyval :=
  show_object_list
    (tr <~ get_tracker self ;;
     tr' <~ get_tracker self ;;
     ret (VEntries
            (List.filter (fun tup => negb (String.eqb (e_name tup) ""))
                         (dataobject_list tr) ++
             List.filter (fun tup => String.eqb (e_name tup) "")
                         (dataobject_list tr')))).

(** [x in l] and [x == y] on class objects: identity. *)
Definition class_in (x : pyclass) (l : list pyclass) : bool :=
  existsb (fun y => bool_decide (x = y)) l.

Definition sort_dataobjects_by_type (self : tref)
    (objecttype : option pyclass)
  : bool -> M pyval :=
  show_object_list
    (match objecttype with
     | None =>
         tr <~ get_tracker self ;;
         let types :=
           fold_left (fun types tup =>
                        if negb (class_in (e_type tup) types)
                        then types ++ [e_type tup] else types)
                     (dataobject_list tr) [] in
         l <~ (fix loop (types : list pyclass) (l : list entry)
                 : M (list entry) :=
                 match types with
                 | [] => ret l
                 | objecttype :: types' =>
                     tr' <~ get_tracker self ;;
                     loop types'
                       (l ++ List.filter
                               (fun tup => bool_decide (e_type tup = objecttype))
                               (dataobject_list tr'))
                 end) types [] ;;
         ret (VEntries l)
     | Some objecttype =>
         tr <~ get_tracker self ;;
         ret (VEntries (List.filter
                          (fun tup => bool_decide (e_type tup = objecttype))
                          (dataobject_list tr)))
     end).

Definition get_object_by_name (self : tref) (nm : string) (exactmatch : bool)
  : bool -> M pyval :=
  show_object_list
    (tr <~ get_tracker self ;;
     if exactmatch
     then ret (VObjs (map e_obj
                        (List.filter (fun tup => String.eqb nm (e_name tup))
                                     (dataobject_list tr))))
     else ret (VObjs (map e_obj
                        (List.filter (fun tup => is_substring nm (e_name tup))
                                     (dataobject_list tr))))).

Definition get_object_by_index (self : tref) (index : Z) : bool -> M pyval :=
  show_object_list
    (tr <~ get_tracker self ;;
     tup <~ py_getitem (dataobject_list tr) index ;;
     ret (VObj (e_obj tup))).

(** ** Vocabulary of the statements *)

(** The origin links of an artifact, its origins, and a registry's entries,
    read off the heap. *)
Definition parents_of (s : store) (a : ref) : list (ref * bool) :=
  match objs s !! a with
  | Some o => parents_and_save_behavior o
  | None => []
  end.

Definition origins_of (s : store) (a : ref) : list ref :=
  map fst (parents_of s a).

Definition entries_of (s : store) (t : tref) : list entry :=
  match trackers s !! t with
  | Some tr => dataobject_list tr
  | None => []
  end.

Definition log_of (s : store) (a : ref) : option (list Z) :=
  match objs s !! a with
  | Some o => modification_log o
  | None => None
  end.

Definition tracker_attr (s : store) (r : ref) : option tref :=
  match objs s !! r with
  | Some o => dataobjecttracker o
  | None => None
  end.

(** The list [get_dataobjecttrackers] builds for [dataobject]: its own
    tracker, then the trackers of its direct parents, in order. *)
Definition one_hop (s : store) (dataobject : ref) : list tref :=
  option_to_list (tracker_attr s dataobject) ++
  concat (map (fun p => option_to_list (tracker_attr s p))
              (origins_of s dataobject)).

(** The body of the loop of [new_parent] over the trackers. *)
Definition register_if_absent (fuel : nat) (self : ref) (sb : bool)
    (tracker : tref) : M unit :=
  c <~ contains_dataobject tracker self ;;
  if negb c
  then new_dataobject fuel tracker self (mkKwargs None (Some sb))
  else ret tt.

(** The tuple [new_dataobject] appends for [dataobject]. *)
Definition new_entry (tr : DataObjectTracker) (o : DataObject) (kw : kwargs)
    (dataobject : ref) : entry :=
  mkEntry (length (dataobject_list tr)) (default (name o) (kw_name kw))
          (cls o) dataobject.

(** Every entry of every registry references an artifact whose origin links
    contain the registry's owner. *)
Definition registry_invariant (s : store) : Prop :=
  map_Forall (fun _ tr =>
                Forall (fun e => rawdatacube tr ∈ origins_of s (e_obj e))
                       (dataobject_list tr))
             (trackers s).

(** The same, except that entries for [a] in registries owned by [w] are not
    yet matched by a link: the state between the two halves of a
    registration. *)
Definition pending_invariant (a w : ref) (s : store) : Prop :=
  map_Forall (fun _ tr =>
                Forall (fun e => rawdatacube tr ∈ origins_of s (e_obj e) \/
                                 (e_obj e = a /\ rawdatacube tr = w))
                       (dataobject_list tr))
             (trackers s).

(** A computation that never runs out of fuel. *)
Definition terminates {A} (m : M A) : Prop :=
  forall s, snd (m s) <> OutOfFuel.

(** A computation that leaves the state as it found it. *)
Definition pure_query {A} (m : M A) : Prop :=
  forall s, fst (m s) = s.

(** An action outside this module advances the logger. *)
Definition with_log_index (k : Z) (s : store) : store :=
  mkStore (objs s) (trackers s) k (stdout s).

(** Stable partition of a registry's entries by [sort_by_name]'s criterion,
    as the specification words it: the named entries in insertion order, and
    the unnamed entries in insertion order. *)
Fixpoint spec_named_entries (l : list entry) : list entry :=
  match l with
  | [] => []
  | e :: l' => match e_name e with
               | EmptyString => spec_named_entries l'
               | String _ _ => e :: spec_named_entries l'
               end
  end.

Fixpoint spec_unnamed_entries (l : list entry) : list entry :=
  match l with
  | [] => []
  | e :: l' => match e_name e with
               | EmptyString => e :: spec_unnamed_entries l'
               | String _ _ => spec_unnamed_entries l'
               end
  end.

(** The propagation targets as the specification words them: the
    artifact's own registry if it owns one, and the registry owned by the
    origin. *)
Definition spec_one_hop_targets (s : store) (a o : ref) : list tref :=
  option_to_list (tracker_attr s a) ++ option_to_list (tracker_attr s o).

(** The specification's reading of add_origin's propagation: afterwards
    every target registry contains the artifact, and no other registry is
    touched. *)
Definition spec_one_hop_propagation (fuel : nat) (s : store) (a o : ref)
    (b : bool) : Prop :=
  let s' := fst (new_parent fuel a (Some o) [] (mkKwargs None (Some b)) s) in
  (forall t, t ∈ spec_one_hop_targets s a o -> a ∈ map e_obj (entries_of s' t)) /\
  (forall t, t ∉ spec_one_hop_targets s a o ->
             trackers s' !! t = trackers s !! t).

(** ** Concrete heaps *)

Definition RawDataCube : pyclass := mkClass 0 "RawDataCube".
Definition DataCube : pyclass := mkClass 1 "DataCube".
Definition PointList : pyclass := mkClass 2 "PointList".
Definition DiffractionSlice : pyclass := mkClass 3 "DiffractionSlice".

(** Another class that is also called DataCube. *)
Definition OtherDataCube : pyclass := mkClass 4 "DataCube".

Definition origin_obj (ps : list (ref * bool)) (t : option tref) : DataObject :=
  mkDataObject RawDataCube true "raw" ps (Some [0]) t.

(** Two origin datasets, 0 and 1, each with its own empty registry. *)
Definition two_origins : store :=
  mkStore {[ 0%nat := origin_obj [] (Some 0%nat);
             1%nat := origin_obj [] (Some 1%nat) ]}
          {[ 0%nat := mkTracker 0%nat []; 1%nat := mkTracker 1%nat [] ]}
          5 [].

(** Origin 0 with registry 0; dataset 1 derived from 0, registered there,
    and owning registry 1; origin 2 with registry 2. *)
Definition nested_origins : store :=
  mkStore {[ 0%nat := origin_obj [] (Some 0%nat);
             1%nat := origin_obj [(0%nat, true)] (Some 1%nat);
             2%nat := origin_obj [] (Some 2%nat) ]}
          {[ 0%nat := mkTracker 0%nat [mkEntry 0 "raw" RawDataCube 1%nat];
             1%nat := mkTracker 1%nat [];
             2%nat := mkTracker 2%nat [] ]}
          5 [].

(** A registry with a named, an unnamed and another named entry. *)
Definition three_entries : store :=
  mkStore {[ 0%nat := origin_obj [] (Some 0%nat);
             1%nat := mkDataObject DataCube true "dc" [(0%nat, true)]
                        (Some [1]) None;
             2%nat := mkDataObject PointList false "" [(0%nat, false)]
                        (Some [2]) None;
             3%nat := mkDataObject DataCube true "dc2" [(0%nat, true)]
                        (Some [3]) None ]}
          {[ 0%nat := mkTracker 0%nat
                        [mkEntry 0 "dc" DataCube 1%nat;
                         mkEntry 1 "" PointList 2%nat;
                         mkEntry 2 "dc2" DataCube 3%nat] ]}
          9 [].

(** A registry with tuples of two different classes that are both called
    DataCube, and one of class PointList. *)
Definition two_datacube_classes : store :=
  mkStore {[ 0%nat := origin_obj [] (Some 0%nat);
             1%nat := mkDataObject DataCube true "a" [(0%nat, true)]
                        (Some [1]) None;
             2%nat := mkDataObject PointList true "b" [(0%nat, true)]
                        (Some [2]) None;
             3%nat := mkDataObject OtherDataCube true "c" [(0%nat, true)]
                        (Some [3]) None ]}
          {[ 0%nat := mkTracker 0%nat
                        [mkEntry 0 "a" DataCube 1%nat;
                         mkEntry 1 "b" PointList 2%nat;
                         mkEntry 2 "c" OtherDataCube 3%nat] ]}
          9 [].

(** ** Vocabulary of the further properties *)

(** What the loop of [new_parent] can do to the state: a sequence of
    appends of a new tuple for [a], each to a tracker that does not yet
    contain [a]. *)
Inductive appends (a : ref) : store -> store -> Prop :=
| appends_refl s : appends a s s
| appends_step s t tr oa kw s' :
    trackers s !! t = Some tr ->
    objs s !! a = Some oa ->
    a ∉ map e_obj (dataobject_list tr) ->
    appends a (upd_tracker s t (with_entry tr (new_entry tr oa kw a))) s' ->
    appends a s s'.

(** The first component of every tuple is its position in the list. *)
Definition indices_are_positions (s : store) : Prop :=
  map_Forall (fun _ tr =>
                map e_index (dataobject_list tr)
                = seq 0 (length (dataobject_list tr)))
             (trackers s).

(** No artifact lists a parent twice. *)
Definition origins_unique (s : store) : Prop :=
  map_Forall (fun _ o => NoDup (map fst (parents_and_save_behavior o)))
             (objs s).

(** No registry lists an artifact twice. *)
Definition entries_unique (s : store) : Prop :=
  map_Forall (fun _ tr => NoDup (map e_obj (dataobject_list tr)))
             (trackers s).

(** Two instances that differ at most in their modification log. *)
Definition same_but_log (o o' : DataObject) : Prop :=
  cls o' = cls o /\ save_behavior o' = save_behavior o /\ name o' = name o /\
  parents_and_save_behavior o' = parents_and_save_behavior o /\
  dataobjecttracker o' = dataobjecttracker o.

(** [s'] has everything [s] has: the same registries with the same owners
    and their lists extended at the end, the same artifacts with their
    parent lists extended at the end and every other attribute as it was,
    and the same logger index. *)
Definition extends (s s' : store) : Prop :=
  log_index s' = log_index s /\
  (forall t, trackers s !! t = None -> trackers s' !! t = None) /\
  (forall t tr, trackers s !! t = Some tr ->
     exists tr', trackers s' !! t = Some tr' /\
                 rawdatacube tr' = rawdatacube tr /\
                 dataobject_list tr `prefix_of` dataobject_list tr') /\
  (forall x o, objs s !! x = Some o ->
     exists o', objs s' !! x = Some o' /\
                parents_and_save_behavior o
                  `prefix_of` parents_and_save_behavior o' /\
                cls o' = cls o /\ save_behavior o' = save_behavior o /\
                name o' = name o /\
                modification_log o' = modification_log o /\
                dataobjecttracker o' = dataobjecttracker o).

(** The instance [o] with its modification log set to [l]. *)
Definition with_log (o : DataObject) (l : list Z) : DataObject :=
  mkDataObject (cls o) (save_behavior o) (name o)
    (parents_and_save_behavior o) (Some l) (dataobjecttracker o).

(** What [print] has written after a listing of [l]. *)
Definition listing (l : list entry) : list line :=
  Header :: map (fun tup => Row (e_index tup) (e_name tup)
                          (class_name (e_type tup))) l.

Definition with_stdout (out : list line) (s : store) : store :=
  mkStore (objs s) (trackers s) (log_index s) out.

(** The list of types [sort_dataobjects_by_type] collects, continued from
    [types]. *)
Definition collect_types (l : list entry) (types : list pyclass)
  : list pyclass :=
  fold_left (fun types tup =>
               if negb (class_in (e_type tup) types)
               then types ++ [e_type tup] else types)
            l types.

Definition of_type (ty : pyclass) (l : list entry) : list entry :=
  List.filter (fun tup => bool_decide (e_type tup = ty)) l.

(** ** Reasoning about computations *)

Lemma bind_Ret_inv {A B} (m : M A) (k : A -> M B) s s' b :
  bind m k s = (s', Ret b) ->
  exists s1 a, m s = (s1, Ret a) /\ k a s1 = (s', Ret b).
Proof.
  unfold bind. destruct (m s) as [s1 [a|e|]]; intros H; try discriminate.
  by exists s1, a.
Qed.

Lemma bind_eq {A B} (m : M A) (k : A -> M B) s s1 a :
  m s = (s1, Ret a) -> bind m k s = k a s1.
Proof. unfold bind. by intros ->. Qed.

Lemma bind_raise {A B} (m : M A) (k : A -> M B) s s1 e :
  m s = (s1, Raise e) -> bind m k s = (s1, Raise e).
Proof. unfold bind. by intros ->. Qed.

Lemma get_obj_Some r o s : objs s !! r = Some o -> get_obj r s = (s, Ret o).
Proof. unfold get_obj. by intros ->. Qed.

Lemma get_obj_None r s :
  objs s !! r = None -> get_obj r s = (s, Raise AttributeError).
Proof. unfold get_obj. by intros ->. Qed.

Lemma get_obj_inv r s s' o :
  get_obj r s = (s', Ret o) -> s' = s /\ objs s !! r = Some o.
Proof. unfold get_obj. destruct (objs s !! r); intros [= <- <-]; auto. Qed.

Lemma get_tracker_Some t tr s :
  trackers s !! t = Some tr -> get_tracker t s = (s, Ret tr).
Proof. unfold get_tracker. by intros ->. Qed.

Lemma get_tracker_inv t s s' tr :
  get_tracker t s = (s', Ret tr) -> s' = s /\ trackers s !! t = Some tr.
Proof. unfold get_tracker. destruct (trackers s !! t); intros [= <- <-]; auto. Qed.

Lemma py_in_true x l : py_in x l = true <-> x ∈ l.
Proof.
  unfold py_in. rewrite existsb_exists. split.
  - intros (y & Hy & Heq). apply bool_decide_eq_true in Heq as ->.
    by apply list_elem_of_In.
  - intros H. exists x. split; [by apply list_elem_of_In|].
    by apply bool_decide_eq_true.
Qed.

Lemma py_in_false x l : py_in x l = false <-> x ∉ l.
Proof.
  rewrite <- py_in_true. destruct (py_in x l); split; congruence.
Qed.

Lemma obj_in_tuples_false x l : obj_in_tuples x l = false.
Proof. unfold obj_in_tuples. induction l; simpl; auto. Qed.

(** ** Purity of the readers *)

Lemma pure_ret {A} (a : A) : pure_query (ret a).
Proof. by intros s. Qed.

Lemma pure_raise {A} e : pure_query (@raise A e).
Proof. by intros s. Qed.

Lemma pure_bind {A B} (m : M A) (k : A -> M B) :
  pure_query m -> (forall a, pure_query (k a)) -> pure_query (bind m k).
Proof.
  intros Hm Hk s. unfold bind. specialize (Hm s).
  destruct (m s) as [s1 [a|e|]]; simpl in *; subst; auto. apply Hk.
Qed.

Lemma pure_get_obj r : pure_query (get_obj r).
Proof. intros s. unfold get_obj. by destruct (objs s !! r). Qed.

Lemma pure_get_tracker t : pure_query (get_tracker t).
Proof. intros s. unfold get_tracker. by destruct (trackers s !! t). Qed.

Lemma pure_py_assert b : pure_query (py_assert b).
Proof. destruct b; [apply pure_ret | apply pure_raise]. Qed.

Lemma pure_py_getitem {A} (l : list A) i : pure_query (py_getitem l i).
Proof.
  unfold py_getitem.
  destruct (_ || _); [apply pure_raise|].
  destruct (l !! _); [apply pure_ret | apply pure_raise].
Qed.

Lemma pure_list_index l args : pure_query (list_index l args).
Proof.
  unfold list_index. destruct args as [|x [|y args]]; try apply pure_raise.
  destruct (first_index x l); [apply pure_ret | apply pure_raise].
Qed.

Lemma pure_try {A} (m : M A) : pure_query m -> pure_query (try_AttributeError m).
Proof.
  intros Hm s. unfold try_AttributeError. specialize (Hm s).
  destruct (m s) as [s1 [a|[]|]]; simpl in *; by subst.
Qed.

Lemma pure_map_M {A B} (f : A -> M B) l :
  (forall x, pure_query (f x)) -> pure_query (map_M f l).
Proof.
  intros Hf. induction l as [|x l IH]; simpl; [apply pure_ret|].
  apply pure_bind; [apply Hf|]. intros y.
  apply pure_bind; [apply IH|]. intros ys. apply pure_ret.
Qed.

Lemma pure_get_parent_list a : pure_query (get_parent_list a).
Proof.
  apply pure_bind; [apply pure_get_obj | intros; apply pure_ret].
Qed.

Lemma pure_has_parent a o : pure_query (has_parent a o).
Proof.
  apply pure_bind; [apply pure_get_parent_list | intros; apply pure_ret].
Qed.

Lemma pure_contains_dataobject t a : pure_query (contains_dataobject t a).
Proof.
  apply pure_bind; [apply pure_get_tracker | intros; apply pure_ret].
Qed.

Lemma pure_getattr_dataobjecttracker r :
  pure_query (getattr_dataobjecttracker r).
Proof.
  apply pure_bind; [apply pure_get_obj|]. intros o.
  destruct (dataobjecttracker o); [apply pure_ret | apply pure_raise].
Qed.

Lemma pure_get_dataobjecttrackers a o : pure_query (get_dataobjecttrackers a o).
Proof.
  unfold get_dataobjecttrackers.
  apply pure_bind; [apply pure_try, pure_getattr_dataobjecttracker|]. intros own.
  apply pure_bind; [apply pure_get_parent_list|]. intros ps.
  apply pure_bind; [|intros; apply pure_ret].
  apply pure_map_M. intros p. apply pure_try, pure_getattr_dataobjecttracker.
Qed.

Lemma pure_get_save_behavior a o : pure_query (get_save_behavior a o).
Proof.
  unfold get_save_behavior.
  repeat (apply pure_bind; [first [apply pure_get_parent_list | apply pure_py_assert
    | apply pure_list_index | apply pure_get_obj | apply pure_py_getitem]|intros]).
  apply pure_ret.
Qed.

Lemma pure_change_save_behavior a o b : pure_query (change_save_behavior a o b).
Proof.
  unfold change_save_behavior.
  repeat (apply pure_bind; [first [apply pure_get_parent_list | apply pure_py_assert
    | apply pure_list_index | apply pure_get_obj | apply pure_py_getitem]|intros]).
  apply pure_raise.
Qed.

Lemma pure_show_object_list_false method :
  pure_query method -> pure_query (show_object_list method false).
Proof.
  intros H. unfold show_object_list.
  apply pure_bind; [done | intros; apply pure_ret].
Qed.

(** C10.  Every query of a registry, called without the formatted listing,
    leaves the whole state as it was: the entries and owner of every
    registry, and the origin links and modification log of every artifact. *)
Theorem queries_are_pure (t : tref) :
  pure_query (get_dataobjects t false) /\
  pure_query (sort_dataobjects_by_name t false) /\
  (forall objecttype, pure_query (sort_dataobjects_by_type t objecttype false)) /\
  (forall nm exactmatch, pure_query (get_object_by_name t nm exactmatch false)) /\
  (forall index, pure_query (get_object_by_index t index false)) /\
  (forall a, pure_query (contains_dataobject t a)).
Proof.
  repeat split; intros; try apply pure_show_object_list_false.
  - apply pure_bind; [apply pure_get_tracker | intros; apply pure_ret].
  - apply pure_bind; [apply pure_get_tracker | intros].
    apply pure_bind; [apply pure_get_tracker | intros; apply pure_ret].
  - destruct objecttype as [ty|].
    + apply pure_bind; [apply pure_get_tracker | intros; apply pure_ret].
    + apply pure_bind; [apply pure_get_tracker | intros tr].
      apply pure_bind; [|intros; apply pure_ret].
      generalize (@nil entry).
      generalize (fold_left
        (fun types tup => if negb (class_in (e_type tup) types)
                          then types ++ [e_type tup] else types)
        (dataobject_list tr) []).
      intros types. induction types as [|ty types IH]; intros acc.
      * apply pure_ret.
      * apply pure_bind; [apply pure_get_tracker | intros; apply IH].
  - apply pure_bind; [apply pure_get_tracker | intros].
    destruct exactmatch; apply pure_ret.
  - apply pure_bind; [apply pure_get_tracker | intros].
    apply pure_bind; [apply pure_py_getitem | intros; apply pure_ret].
  - apply pure_contains_dataobject.
Qed.

(** ** sort_dataobjects_by_name *)

Lemma filter_named_spec l :
  List.filter (fun tup => negb (String.eqb (e_name tup) "")) l
  = spec_named_entries l.
Proof.
  induction l as [|e l IH]; simpl; [done|].
  destruct (e_name e); simpl; by rewrite IH.
Qed.

Lemma filter_unnamed_spec l :
  List.filter (fun tup => String.eqb (e_name tup) "") l
  = spec_unnamed_entries l.
Proof.
  induction l as [|e l IH]; simpl; [done|].
  destruct (e_name e); simpl; by rewrite IH.
Qed.

Lemma spec_named_sublist l : spec_named_entries l `sublist_of` l.
Proof.
  induction l as [|e l IH]; simpl; [constructor|].
  destruct (e_name e); by constructor.
Qed.

Lemma spec_unnamed_sublist l : spec_unnamed_entries l `sublist_of` l.
Proof.
  induction l as [|e l IH]; simpl; [constructor|].
  destruct (e_name e); by constructor.
Qed.

Lemma spec_named_Forall l :
  Forall (fun e => e_name e <> "") (spec_named_entries l).
Proof.
  induction l as [|e l IH]; simpl; [constructor|].
  destruct (e_name e) eqn:E; [done|]. constructor; [by rewrite E | done].
Qed.

Lemma spec_unnamed_Forall l :
  Forall (fun e => e_name e = "") (spec_unnamed_entries l).
Proof.
  induction l as [|e l IH]; simpl; [constructor|].
  destruct (e_name e) eqn:E; [|done]. by constructor.
Qed.

Lemma spec_partition_Permutation l :
  spec_named_entries l ++ spec_unnamed_entries l ≡ₚ l.
Proof.
  induction l as [|e l IH]; simpl; [done|].
  destruct (e_name e); simpl.
  - rewrite <- Permutation_middle. by constructor.
  - by constructor.
Qed.

(** C8.  For every registry, [sort_dataobjects_by_name] returns the entries
    with a non-empty name in insertion order followed by the entries with an
    empty name in insertion order: the two groups are order-preserving
    sub-sequences of the entries, and together a rearrangement of them. *)
Theorem sort_by_name_stable_partition (s : store) (t : tref)
    (tr : DataObjectTracker) :
  trackers s !! t = Some tr ->
  exists named unnamed,
    sort_dataobjects_by_name t false s = (s, Ret (VEntries (named ++ unnamed))) /\
    named = spec_named_entries (dataobject_list tr) /\
    unnamed = spec_unnamed_entries (dataobject_list tr) /\
    named `sublist_of` dataobject_list tr /\
    unnamed `sublist_of` dataobject_list tr /\
    Forall (fun e => e_name e <> "") named /\
    Forall (fun e => e_name e = "") unnamed /\
    named ++ unnamed ≡ₚ dataobject_list tr.
Proof.
  intros Ht.
  exists (spec_named_entries (dataobject_list tr)),
         (spec_unnamed_entries (dataobject_list tr)).
  split.
  - unfold sort_dataobjects_by_name, show_object_list.
    rewrite (bind_eq _ _ s s (VEntries (spec_named_entries (dataobject_list tr)
                               ++ spec_unnamed_entries (dataobject_list tr))));
      [done|].
    rewrite (bind_eq _ _ s s tr) by by apply get_tracker_Some.
    rewrite (bind_eq _ _ s s tr) by by apply get_tracker_Some.
    by rewrite filter_named_spec, filter_unnamed_spec.
  - repeat split; auto using spec_named_sublist, spec_unnamed_sublist,
      spec_named_Forall, spec_unnamed_Forall, spec_partition_Permutation.
Qed.

Lemma sort_by_name_stable_partition_witness :
  exists named unnamed,
    sort_dataobjects_by_name 0%nat false three_entries
      = (three_entries, Ret (VEntries (named ++ unnamed))) /\
    named = [mkEntry 0 "dc" DataCube 1%nat; mkEntry 2 "dc2" DataCube 3%nat] /\
    unnamed = [mkEntry 1 "" PointList 2%nat].
Proof.
  destruct (sort_by_name_stable_partition three_entries 0%nat
              (mkTracker 0%nat [mkEntry 0 "dc" DataCube 1%nat;
                                mkEntry 1 "" PointList 2%nat;
                                mkEntry 2 "dc2" DataCube 3%nat]))
    as (named & unnamed & H & -> & -> & _).
  - reflexivity.
  - eexists _, _. split; [exact H|]. split; reflexivity.
Defined.

(** ** get_object_by_index *)

Lemma py_getitem_nonneg {A} (l : list A) i x s :
  0 <= i -> l !! Z.to_nat i = Some x -> py_getitem l i s = (s, Ret x).
Proof.
  intros Hi Hx. unfold py_getitem.
  apply lookup_lt_Some in Hx as Hlt.
  destruct (i <? 0) eqn:E1; [lia|].
  destruct (i <? 0) eqn:E2; [lia|].
  destruct (Z.of_nat (length l) <=? i) eqn:E3; [lia|]. simpl.
  by rewrite Hx.
Qed.

Lemma py_getitem_negative {A} (l : list A) i x s :
  i < 0 -> 0 <= i + Z.of_nat (length l) ->
  l !! Z.to_nat (i + Z.of_nat (length l)) = Some x ->
  py_getitem l i s = (s, Ret x).
Proof.
  intros Hi Hn Hx. unfold py_getitem.
  destruct (i <? 0) eqn:E1; [|lia].
  destruct (i + Z.of_nat (length l) <? 0) eqn:E2; [lia|].
  destruct (Z.of_nat (length l) <=? i + Z.of_nat (length l)) eqn:E3; [lia|].
  simpl. by rewrite Hx.
Qed.

Lemma py_getitem_out_of_range {A} (l : list A) i s :
  i < - Z.of_nat (length l) \/ Z.of_nat (length l) <= i ->
  py_getitem l i s = (s, Raise IndexError).
Proof.
  intros Hi. unfold py_getitem.
  destruct (i <? 0) eqn:E1.
  - destruct (i + Z.of_nat (length l) <? 0) eqn:E2; [done|]. lia.
  - destruct (i <? 0) eqn:E2; [done|].
    destruct (Z.of_nat (length l) <=? i) eqn:E3; [done|]. lia.
Qed.

Lemma get_object_by_index_unfold s t tr index :
  trackers s !! t = Some tr ->
  get_object_by_index t index false s
  = match py_getitem (dataobject_list tr) index s with
    | (s', Ret tup) => (s', Ret (VObj (e_obj tup)))
    | (s', Raise e) => (s', Raise e)
    | (s', OutOfFuel) => (s', OutOfFuel)
    end.
Proof.
  intros Ht. unfold get_object_by_index, show_object_list.
  unfold bind at 1. unfold bind at 1.
  rewrite (get_tracker_Some _ _ _ Ht).
  unfold bind. by destruct (py_getitem _ _ _) as [s' [tup|e|]].
Qed.

(** C9 as the specification states it fails: on a registry of three
    entries, index -1 is no position between 0 and 2, yet the call returns
    the artifact of the last entry instead of failing. *)
Lemma get_object_by_index_negative_counterexample :
  ~ (0 <= -1 < Z.of_nat (length (entries_of three_entries 0%nat))) /\
  get_object_by_index 0%nat (-1) false three_entries
  = (three_entries, Ret (VObj 3%nat)).
Proof. split; [lia | reflexivity]. Qed.

(** C9, amended.  With [n] entries, [get_object_by_index] returns the
    artifact at position [index] when [0 <= index < n], the artifact at
    position [n + index] when [-n <= index < 0], and fails with IndexError
    for every other integer. *)
Theorem get_object_by_index_spec (s : store) (t : tref)
    (tr : DataObjectTracker) (index : Z) :
  trackers s !! t = Some tr ->
  let l := dataobject_list tr in
  let n := Z.of_nat (length l) in
  (0 <= index < n ->
   exists e, l !! Z.to_nat index = Some e /\
             get_object_by_index t index false s = (s, Ret (VObj (e_obj e)))) /\
  (- n <= index < 0 ->
   exists e, l !! Z.to_nat (n + index) = Some e /\
             get_object_by_index t index false s = (s, Ret (VObj (e_obj e)))) /\
  (index < - n \/ n <= index ->
   get_object_by_index t index false s = (s, Raise IndexError)).
Proof.
  intros Ht l n. rewrite (get_object_by_index_unfold _ _ _ _ Ht).
  fold l. repeat split.
  - intros Hi. destruct (lookup_lt_is_Some_2 l (Z.to_nat index)) as [e He];
      [subst n; lia|].
    exists e. split; [done|]. rewrite (py_getitem_nonneg l index e); [done|lia|done].
  - intros Hi. destruct (lookup_lt_is_Some_2 l (Z.to_nat (n + index))) as [e He];
      [subst n; lia|].
    exists e. split; [done|].
    rewrite (py_getitem_negative l index e); [done|lia|subst n; lia|].
    by rewrite Z.add_comm.
  - intros Hi. by rewrite py_getitem_out_of_range.
Qed.

Lemma get_object_by_index_spec_witness :
  get_object_by_index 0%nat 1 false three_entries
    = (three_entries, Ret (VObj 2%nat)) /\
  get_object_by_index 0%nat (-3) false three_entries
    = (three_entries, Ret (VObj 1%nat)) /\
  get_object_by_index 0%nat 3 false three_entries
    = (three_entries, Raise IndexError).
Proof.
  destruct (get_object_by_index_spec three_entries 0%nat
              (mkTracker 0%nat [mkEntry 0 "dc" DataCube 1%nat;
                                mkEntry 1 "" PointList 2%nat;
                                mkEntry 2 "dc2" DataCube 3%nat]) 1 eq_refl)
    as ((e1 & He1 & H1) & _ & _); [simpl; lia|].
  destruct (get_object_by_index_spec three_entries 0%nat
              (mkTracker 0%nat [mkEntry 0 "dc" DataCube 1%nat;
                                mkEntry 1 "" PointList 2%nat;
                                mkEntry 2 "dc2" DataCube 3%nat]) (-3) eq_refl)
    as (_ & H2 & _).
  destruct H2 as (e2 & He2 & H2); [simpl; lia|].
  destruct (get_object_by_index_spec three_entries 0%nat
              (mkTracker 0%nat [mkEntry 0 "dc" DataCube 1%nat;
                                mkEntry 1 "" PointList 2%nat;
                                mkEntry 2 "dc2" DataCube 3%nat]) 3 eq_refl)
    as (_ & _ & H3).
  simpl in He1, He2. injection He1 as <-. injection He2 as <-.
  split; [exact H1|]. split; [exact H2|]. apply H3. simpl. lia.
Defined.

(** ** log_modification *)

Lemma log_modification_appends s a o l :
  objs s !! a = Some o -> modification_log o = Some l ->
  exists s',
    log_modification a s = (s', Ret tt) /\
    log_of s' a = Some (l ++ [log_index s - 1]) /\
    log_index s' = log_index s /\
    trackers s' = trackers s /\
    parents_of s' a = parents_of s a.
Proof.
  intros Ha Hl. unfold log_modification, get_current_log_index.
  unfold bind at 1. unfold bind at 1. rewrite (get_obj_Some _ _ _ Ha), Hl.
  eexists. split; [reflexivity|].
  unfold log_of, parents_of. simpl. rewrite lookup_insert_eq, Ha. done.
Qed.

Lemma new_parent_None fuel self kw s o :
  objs s !! self = Some o ->
  new_parent (S fuel) self None [] kw s = (s, Ret tt).
Proof.
  intros Ho. simpl. destruct (kw_save_behavior kw); [done|].
  unfold bind at 1. unfold bind at 1. by rewrite (get_obj_Some _ _ _ Ho).
Qed.

Lemma alloc_obj_fresh (s : store) : objs s !! fresh (dom (objs s)) = None.
Proof. apply not_elem_of_dom, is_fresh. Qed.

(** Constructing an artifact without origin. *)
Lemma DataObject_init_no_parent fuel klass sb nm s :
  exists s1 a,
    DataObject_init (S fuel) klass None sb nm s = (s1, Ret a) /\
    objs s !! a = None /\
    log_of s1 a = Some [log_index s - 1] /\
    parents_of s1 a = [] /\
    trackers s1 = trackers s.
Proof.
  unfold DataObject_init, alloc_obj. unfold bind at 1.
  set (a := fresh (dom (objs s))).
  set (o := mkDataObject klass (default true sb) (default "" nm) [] None None).
  set (s0 := upd_obj s a o).
  assert (Ha : objs s0 !! a = Some o) by (simpl; apply lookup_insert_eq).
  rewrite (bind_eq _ _ s0 s0 o) by by apply get_obj_Some.
  rewrite (bind_eq _ _ s0 s0 tt) by by eapply new_parent_None.
  rewrite (bind_eq _ _ s0 s0 o) by by apply get_obj_Some.
  unfold bind at 1. unfold set_obj at 1.
  set (o1 := mkDataObject _ _ _ _ (Some []) _).
  set (s1 := upd_obj _ _ _).
  assert (Ha1 : objs s1 !! a = Some o1) by (simpl; apply lookup_insert_eq).
  destruct (log_modification_appends s1 a o1 [] Ha1 eq_refl)
    as (s2 & Hrun & Hlog & _ & Htr & Hps).
  rewrite (bind_eq _ _ s1 s2 tt) by done.
  exists s2, a. split; [done|]. split; [apply alloc_obj_fresh|].
  split; [done|]. split; [|done].
  rewrite Hps. unfold parents_of. by rewrite Ha1.
Qed.

(** C7.  Whenever [log_modification] runs while the logger reads [k], the
    value appended to the artifact's modification log is [k - 1].  In
    particular an artifact constructed without origin while the counter
    reads 5 has the log [4], and after a later [log_modification] with the
    counter at 9 the log is [4; 8]. *)
Theorem logging_offset_law :
  (forall s a o l,
     objs s !! a = Some o -> modification_log o = Some l ->
     exists s', log_modification a s = (s', Ret tt) /\
                log_of s' a = Some (l ++ [log_index s - 1])) /\
  (forall fuel klass sb nm s,
     log_index s = 5 ->
     exists s1 a,
       DataObject_init (S fuel) klass None sb nm s = (s1, Ret a) /\
       log_of s1 a = Some [4] /\
       exists s2, log_modification a (with_log_index 9 s1) = (s2, Ret tt) /\
                  log_of s2 a = Some [4; 8]).
Proof.
  split.
  - intros s a o l Ha Hl.
    destruct (log_modification_appends s a o l Ha Hl) as (s' & H1 & H2 & _).
    eauto.
  - intros fuel klass sb nm s Hk.
    destruct (DataObject_init_no_parent fuel klass sb nm s)
      as (s1 & a & Hrun & _ & Hlog & _).
    rewrite Hk in Hlog. exists s1, a. split; [done|]. split; [done|].
    unfold log_of in Hlog. destruct (objs s1 !! a) as [o|] eqn:Ho; [|done].
    destruct (log_modification_appends (with_log_index 9 s1) a o [4] Ho Hlog)
      as (s2 & H1 & H2 & _).
    exists s2. split; done.
Qed.

Lemma logging_offset_law_witness :
  (exists s', log_modification 1%nat three_entries = (s', Ret tt) /\
              log_of s' 1%nat = Some [1; 8]) /\
  (exists s1 a,
     DataObject_init 1 RawDataCube None None None two_origins = (s1, Ret a) /\
     log_of s1 a = Some [4] /\
     exists s2, log_modification a (with_log_index 9 s1) = (s2, Ret tt) /\
                log_of s2 a = Some [4; 8]).
Proof.
  destruct logging_offset_law as [H1 H2]. split.
  - apply (H1 three_entries 1%nat
             (mkDataObject DataCube true "dc" [(0%nat, true)] (Some [1]) None)
             [1]); reflexivity.
  - apply (H2 0%nat RawDataCube None None two_origins). reflexivity.
Defined.

(** ** The two defects of the registration protocol *)

(** Linking an origin to an artifact a second time reaches
    [change_save_behavior], which raises before anything is updated. *)
Lemma new_parent_again_raises fuel a o kw s :
  o ∈ origins_of s a ->
  new_parent (S fuel) a (Some o) [] kw s = (s, Raise TypeError).
Proof.
  intros Ho. unfold origins_of, parents_of in Ho.
  destruct (objs s !! a) as [oa|] eqn:Ha; [|by apply elem_of_nil in Ho].
  apply py_in_true in Ho. simpl.
  assert (Hsb : exists b,
    match kw_save_behavior kw with
    | Some b => ret b
    | None => o <~ get_obj a ;; ret (save_behavior o)
    end s = (s, Ret b)).
  { destruct (kw_save_behavior kw) as [b|]; [by exists b|].
    exists (save_behavior oa). unfold bind. by rewrite (get_obj_Some _ _ _ Ha). }
  destruct Hsb as [b Hsb]. rewrite (bind_eq _ _ s s b Hsb).
  assert (Hps : get_parent_list a s
                = (s, Ret (map fst (parents_and_save_behavior oa)))).
  { unfold get_parent_list, bind. by rewrite (get_obj_Some _ _ _ Ha). }
  rewrite (bind_eq _ _ _ _ _ Hps). rewrite Ho. simpl.
  apply bind_raise. unfold change_save_behavior.
  rewrite (bind_eq _ _ _ _ _ Hps). rewrite Ho. simpl.
  unfold bind at 1. unfold ret at 1.
  by rewrite (bind_eq _ _ _ _ _ Hps).
Qed.


(** ** The methods as equations on the heap *)

Lemma get_parent_list_eq a oa s :
  objs s !! a = Some oa -> get_parent_list a s = (s, Ret (origins_of s a)).
Proof.
  intros Ha. unfold get_parent_list, bind, origins_of, parents_of.
  by rewrite (get_obj_Some _ _ _ Ha), Ha.
Qed.

Lemma has_parent_eq a oa w s :
  objs s !! a = Some oa ->
  has_parent a w s = (s, Ret (py_in w (origins_of s a))).
Proof.
  intros Ha. unfold has_parent. by rewrite (bind_eq _ _ _ _ _ (get_parent_list_eq _ _ _ Ha)).
Qed.

Lemma contains_dataobject_eq t tr a s :
  trackers s !! t = Some tr ->
  contains_dataobject t a s = (s, Ret (py_in a (map e_obj (entries_of s t)))).
Proof.
  intros Ht. unfold contains_dataobject, entries_of.
  by rewrite (bind_eq _ _ _ _ _ (get_tracker_Some _ _ _ Ht)), Ht.
Qed.

Lemma try_getattr_eq r s :
  try_AttributeError (getattr_dataobjecttracker r) s = (s, Ret (tracker_attr s r)).
Proof.
  unfold try_AttributeError, getattr_dataobjecttracker, bind, get_obj,
    tracker_attr.
  destruct (objs s !! r) as [o|]; [|done]. by destruct (dataobjecttracker o).
Qed.

Lemma map_M_pure {A B} (f : A -> M B) (g : A -> B) l s :
  (forall x, f x s = (s, Ret (g x))) -> map_M f l s = (s, Ret (map g l)).
Proof.
  intros Hf. induction l as [|x l IH]; simpl; [done|].
  rewrite (bind_eq _ _ _ _ _ (Hf x)). by rewrite (bind_eq _ _ _ _ _ IH).
Qed.

Lemma get_dataobjecttrackers_eq a o oo s :
  objs s !! o = Some oo ->
  get_dataobjecttrackers a o s = (s, Ret (one_hop s o)).
Proof.
  intros Ho. unfold get_dataobjecttrackers.
  rewrite (bind_eq _ _ _ _ _ (try_getattr_eq o s)).
  rewrite (bind_eq _ _ _ _ _ (get_parent_list_eq _ _ _ Ho)).
  rewrite (bind_eq _ _ s s (map (tracker_attr s) (origins_of s o))).
  - unfold one_hop. by rewrite map_map.
  - apply map_M_pure. intros p. apply try_getattr_eq.
Qed.

Lemma get_dataobjecttrackers_None a o s :
  objs s !! o = None ->
  get_dataobjecttrackers a o s = (s, Raise AttributeError).
Proof.
  intros Ho. unfold get_dataobjecttrackers.
  rewrite (bind_eq _ _ _ _ _ (try_getattr_eq o s)).
  apply bind_raise. unfold get_parent_list. apply bind_raise.
  by apply get_obj_None.
Qed.

Lemma new_dataobject_eq fuel t a kw s tr oa :
  trackers s !! t = Some tr -> objs s !! a = Some oa ->
  new_dataobject (S fuel) t a kw s
  = let s1 := upd_tracker s t (with_entry tr (new_entry tr oa kw a)) in
    if py_in (rawdatacube tr) (origins_of s a)
    then (s1, Ret tt)
    else match kw_save_behavior kw with
         | Some b => new_parent fuel a (Some (rawdatacube tr)) [b] no_kwargs s1
         | None => new_parent fuel a (Some (rawdatacube tr)) [] no_kwargs s1
         end.
Proof.
  intros Ht Ha. cbn [new_dataobject].
  unfold bind at 1. unfold try_AttributeError at 1.
  rewrite (get_obj_Some _ _ _ Ha).
  unfold bind at 1. simpl py_assert. unfold ret at 1.
  rewrite (bind_eq _ _ _ _ _ (get_tracker_Some _ _ _ Ht)).
  rewrite obj_in_tuples_false. simpl negb. cbv iota.
  set (s1 := upd_tracker s t (with_entry tr (new_entry tr oa kw a))).
  assert (Happ :
    (nm <~ match kw_name kw with
           | Some n => ret n
           | None => o <~ get_obj a ;; ret (name o)
           end ;;
     o <~ get_obj a ;;
     append_entry t (mkEntry (length (dataobject_list tr)) nm (cls o) a)) s
    = (s1, Ret tt)).
  { unfold bind at 1.
    assert (Hn : match kw_name kw with
                 | Some n => ret n
                 | None => o <~ get_obj a ;; ret (name o)
                 end s = (s, Ret (default (name oa) (kw_name kw)))).
    { destruct (kw_name kw); [done|].
      by rewrite (bind_eq _ _ _ _ _ (get_obj_Some _ _ _ Ha)). }
    rewrite Hn. rewrite (bind_eq _ _ _ _ _ (get_obj_Some _ _ _ Ha)).
    unfold append_entry.
    by rewrite (bind_eq _ _ _ _ _ (get_tracker_Some _ _ _ Ht)). }
  rewrite (bind_eq _ _ _ _ _ Happ).
  assert (Ht1 : trackers s1 !! t
                = Some (with_entry tr (new_entry tr oa kw a)))
    by (simpl; apply lookup_insert_eq).
  rewrite (bind_eq _ _ _ _ _ (get_tracker_Some _ _ _ Ht1)).
  assert (Ha1 : objs s1 !! a = Some oa) by done.
  rewrite (bind_eq _ _ _ _ _ (has_parent_eq _ _ _ _ Ha1)).
  cbn zeta. replace (origins_of s1 a) with (origins_of s a) by done.
  change (rawdatacube (with_entry tr (new_entry tr oa kw a)))
    with (rawdatacube tr).
  destruct (py_in (rawdatacube tr) (origins_of s a)); [done|].
  by destruct (kw_save_behavior kw).
Qed.

Lemma new_dataobject_no_object fuel t a kw s :
  objs s !! a = None ->
  new_dataobject (S fuel) t a kw s = (s, Raise AssertionError).
Proof.
  intros Ha. cbn [new_dataobject].
  unfold bind at 1. unfold try_AttributeError at 1.
  by rewrite (get_obj_None _ _ Ha).
Qed.

Lemma new_dataobject_no_tracker fuel t a kw s oa :
  objs s !! a = Some oa -> trackers s !! t = None ->
  new_dataobject (S fuel) t a kw s = (s, Raise AttributeError).
Proof.
  intros Ha Ht. cbn [new_dataobject].
  unfold bind at 1. unfold try_AttributeError at 1.
  rewrite (get_obj_Some _ _ _ Ha).
  unfold bind at 1. simpl py_assert. unfold ret at 1.
  apply bind_raise. unfold get_tracker. by rewrite Ht.
Qed.

Lemma new_parent_extra fuel a p b extra kw s :
  new_parent (S fuel) a p (b :: extra) kw s = (s, Raise TypeError).
Proof. done. Qed.

Lemma new_parent_eq fuel a o kw s oa :
  objs s !! a = Some oa ->
  new_parent (S fuel) a (Some o) [] kw s
  = let sb := default (save_behavior oa) (kw_save_behavior kw) in
    if py_in o (origins_of s a)
    then (s, Raise TypeError)
    else
      let s1 := upd_obj s a (with_parent oa (o, sb)) in
      match objs s1 !! o with
      | Some _ => for_each (one_hop s1 o) (register_if_absent fuel a sb) s1
      | None => (s1, Raise AttributeError)
      end.
Proof.
  intros Ha. destruct (py_in o (origins_of s a)) eqn:Hin.
  { apply new_parent_again_raises. by apply py_in_true. }
  cbn [new_parent].
  assert (Hsb :
    match kw_save_behavior kw with
    | Some b => ret b
    | None => o <~ get_obj a ;; ret (save_behavior o)
    end s = (s, Ret (default (save_behavior oa) (kw_save_behavior kw)))).
  { destruct (kw_save_behavior kw) as [b|]; [done|].
    by rewrite (bind_eq _ _ _ _ _ (get_obj_Some _ _ _ Ha)). }
  rewrite (bind_eq _ _ _ _ _ Hsb).
  rewrite (bind_eq _ _ _ _ _ (get_parent_list_eq _ _ _ Ha)).
  rewrite Hin. simpl negb. cbv iota.
  set (sb := default _ _). cbn zeta.
  set (s1 := upd_obj s a (with_parent oa (o, sb))).
  assert (Happ : append_parent a (o, sb) s = (s1, Ret tt)).
  { unfold append_parent. by rewrite (bind_eq _ _ _ _ _ (get_obj_Some _ _ _ Ha)). }
  rewrite (bind_eq _ _ _ _ _ Happ).
  destruct (objs s1 !! o) as [oo|] eqn:Ho.
  - by rewrite (bind_eq _ _ _ _ _ (get_dataobjecttrackers_eq a _ _ _ Ho)).
  - apply bind_raise. by apply get_dataobjecttrackers_None.
Qed.

Lemma new_parent_no_self fuel a p kw s :
  objs s !! a = None -> kw_save_behavior kw = None ->
  new_parent (S fuel) a p [] kw s = (s, Raise AttributeError).
Proof.
  intros Ha Hkw. cbn [new_parent]. rewrite Hkw.
  apply bind_raise. apply bind_raise. by apply get_obj_None.
Qed.

Lemma new_parent_missing_self fuel a o kw s :
  objs s !! a = None ->
  new_parent (S fuel) a (Some o) [] kw s = (s, Raise AttributeError).
Proof.
  intros Ha. cbn [new_parent].
  destruct (kw_save_behavior kw) as [b|].
  - unfold bind at 1. unfold ret at 1. apply bind_raise.
    unfold get_parent_list. apply bind_raise. by apply get_obj_None.
  - apply bind_raise. apply bind_raise. by apply get_obj_None.
Qed.

Lemma register_if_absent_eq fuel a sb t tr s :
  trackers s !! t = Some tr ->
  register_if_absent fuel a sb t s
  = if py_in a (map e_obj (entries_of s t)) then (s, Ret tt)
    else new_dataobject fuel t a (mkKwargs None (Some sb)) s.
Proof.
  intros Ht. unfold register_if_absent.
  rewrite (bind_eq _ _ _ _ _ (contains_dataobject_eq _ _ a _ Ht)).
  by destruct (py_in a _).
Qed.

Lemma register_if_absent_no_tracker fuel a sb t s :
  trackers s !! t = None ->
  register_if_absent fuel a sb t s = (s, Raise AttributeError).
Proof.
  intros Ht. unfold register_if_absent. apply bind_raise.
  unfold contains_dataobject. apply bind_raise.
  unfold get_tracker. by rewrite Ht.
Qed.

(** ** Termination *)

Lemma terminates_ret {A} (a : A) : terminates (ret a).
Proof. by intros s. Qed.

Lemma terminates_raise {A} e : terminates (@raise A e).
Proof. by intros s. Qed.

Lemma terminates_bind {A B} (m : M A) (k : A -> M B) :
  terminates m -> (forall a, terminates (k a)) -> terminates (bind m k).
Proof.
  intros Hm Hk s. unfold bind. specialize (Hm s).
  destruct (m s) as [s1 [a|e|]]; simpl in *; [apply Hk|done|done].
Qed.

Lemma terminates_for_each {A} (l : list A) body :
  (forall x, terminates (body x)) -> terminates (for_each l body).
Proof.
  intros Hb. induction l as [|x l IH]; simpl; [apply terminates_ret|].
  apply terminates_bind; auto.
Qed.

Lemma terminates_contains_dataobject t a : terminates (contains_dataobject t a).
Proof.
  intros s. unfold contains_dataobject, bind, get_tracker.
  by destruct (trackers s !! t).
Qed.

Lemma terminates_register_if_absent fuel a sb t :
  terminates (new_dataobject fuel t a (mkKwargs None (Some sb))) ->
  terminates (register_if_absent fuel a sb t).
Proof.
  intros H. unfold register_if_absent.
  apply terminates_bind; [apply terminates_contains_dataobject|].
  intros []; simpl; [apply terminates_ret | done].
Qed.

(** A registration that carries a save behaviour never calls back into a
    running [new_parent]: two levels of calls are all it makes. *)
Lemma terminates_new_dataobject_save_behavior fuel t a nm b :
  terminates (new_dataobject (S (S fuel)) t a (mkKwargs nm (Some b))).
Proof.
  intros s.
  destruct (objs s !! a) as [oa|] eqn:Ha;
    [|by rewrite new_dataobject_no_object].
  destruct (trackers s !! t) as [tr|] eqn:Ht;
    [|by erewrite new_dataobject_no_tracker].
  rewrite (new_dataobject_eq _ _ _ _ _ _ _ Ht Ha). cbn zeta.
  destruct (py_in _ _); [done|]. simpl kw_save_behavior. cbv iota.
  by rewrite new_parent_extra.
Qed.

Lemma terminates_new_parent fuel a p extra kw :
  terminates (new_parent (S (S (S fuel))) a p extra kw).
Proof.
  intros s. destruct extra as [|b extra]; [|by rewrite new_parent_extra].
  destruct p as [o|].
  - destruct (objs s !! a) as [oa|] eqn:Ha;
      [|by rewrite new_parent_missing_self].
    rewrite (new_parent_eq _ _ _ _ _ _ Ha). cbn zeta.
    destruct (py_in _ _); [done|].
    destruct (objs _ !! o); [|done].
    apply terminates_for_each. intros t.
    apply terminates_register_if_absent,
      terminates_new_dataobject_save_behavior.
  - cbn [new_parent].
    apply terminates_bind; [|intros; apply terminates_ret].
    destruct (kw_save_behavior kw); [apply terminates_ret|].
    apply terminates_bind; [|intros; apply terminates_ret].
    intros s'. unfold get_obj. by destruct (objs s' !! a).
Qed.

Lemma terminates_new_dataobject fuel t a kw :
  terminates (new_dataobject (S (S (S (S fuel)))) t a kw).
Proof.
  intros s.
  destruct (objs s !! a) as [oa|] eqn:Ha;
    [|by rewrite new_dataobject_no_object].
  destruct (trackers s !! t) as [tr|] eqn:Ht;
    [|by erewrite new_dataobject_no_tracker].
  rewrite (new_dataobject_eq _ _ _ _ _ _ _ Ht Ha). cbn zeta.
  destruct (py_in _ _); [done|].
  destruct (kw_save_behavior kw); apply terminates_new_parent.
Qed.

Lemma for_each_ext {A} (l : list A) (f g : A -> M unit) s :
  (forall x s', f x s' = g x s') -> for_each l f s = for_each l g s.
Proof.
  intros Hfg. revert s. induction l as [|x l IH]; intros s; simpl; [done|].
  unfold bind. rewrite Hfg. destruct (g x s) as [s1 [[]|e|]]; auto.
Qed.

(** More fuel than the depth of the calls changes nothing. *)
Lemma new_dataobject_save_behavior_fuel fuel t a nm b s :
  new_dataobject (S (S fuel)) t a (mkKwargs nm (Some b)) s
  = new_dataobject 2 t a (mkKwargs nm (Some b)) s.
Proof.
  destruct (objs s !! a) as [oa|] eqn:Ha;
    [|by rewrite !new_dataobject_no_object].
  destruct (trackers s !! t) as [tr|] eqn:Ht;
    [|by rewrite !(new_dataobject_no_tracker _ _ _ _ _ _ Ha Ht)].
  rewrite !(new_dataobject_eq _ _ _ _ _ _ _ Ht Ha). cbn zeta.
  destruct (py_in _ _); [done|]. simpl kw_save_behavior. cbv iota.
  by rewrite !new_parent_extra.
Qed.

Lemma new_parent_fuel fuel a p extra kw s :
  new_parent (S (S (S fuel))) a p extra kw s = new_parent 3 a p extra kw s.
Proof.
  destruct extra as [|b extra]; [|by rewrite !new_parent_extra].
  destruct p as [o|]; [|done].
  destruct (objs s !! a) as [oa|] eqn:Ha;
    [|by rewrite !new_parent_missing_self].
  rewrite !(new_parent_eq _ _ _ _ _ _ Ha). cbn zeta.
  destruct (py_in _ _); [done|].
  destruct (objs _ !! o); [|done].
  apply for_each_ext. intros t s'. unfold register_if_absent, bind.
  destruct (contains_dataobject t a s') as [s1 [c|e|]]; [|done|done].
  destruct c; simpl negb; cbv iota; [done|].
  apply new_dataobject_save_behavior_fuel.
Qed.

Lemma new_dataobject_fuel fuel t a kw s :
  new_dataobject (S (S (S (S fuel)))) t a kw s = new_dataobject 4 t a kw s.
Proof.
  destruct (objs s !! a) as [oa|] eqn:Ha;
    [|by rewrite !new_dataobject_no_object].
  destruct (trackers s !! t) as [tr|] eqn:Ht;
    [|by rewrite !(new_dataobject_no_tracker _ _ _ _ _ _ Ha Ht)].
  rewrite !(new_dataobject_eq _ _ _ _ _ _ _ Ht Ha). cbn zeta.
  destruct (py_in _ _); [done|].
  destruct (kw_save_behavior kw); apply new_parent_fuel.
Qed.

Lemma for_each_register_out_of_fuel a sb l s s1 :
  for_each l (register_if_absent 0 a sb) s = (s1, OutOfFuel) ->
  s1 = s /\ exists t, t ∈ l /\ a ∉ map e_obj (entries_of s t).
Proof.
  induction l as [|t l IH]; simpl; [done|].
  unfold bind at 1.
  destruct (trackers s !! t) as [tr|] eqn:Ht.
  - rewrite (register_if_absent_eq _ _ _ _ _ _ Ht).
    destruct (py_in a _) eqn:Hin.
    + intros H. destruct (IH H) as (-> & t' & Ht' & Hn).
      split; [done|]. exists t'. split; [by right | done].
    + cbn [new_dataobject]. unfold out_of_fuel. intros [= <-].
      split; [done|]. exists t. split; [by left|]. by apply py_in_false.
  - by rewrite (register_if_absent_no_tracker _ _ _ _ _ Ht).
Qed.

(** C5.  The mutually recursive pair [new_parent] / [new_dataobject]
    terminates for every artifact, origin, tracker and state: four levels
    of calls always suffice, and further fuel does not change the result.
    A call crosses to the other method only after it has added its own
    membership (the origin link, or the registry entry) and only while the
    other membership is still missing, so neither side recurses once both
    checks are true.  (A run given one level of fuel stops exactly where it
    would call the other method.) *)
Theorem registration_terminates :
  (forall fuel a p extra kw,
     (3 <= fuel)%nat ->
     terminates (new_parent fuel a p extra kw) /\
     forall s, new_parent fuel a p extra kw s = new_parent 3 a p extra kw s) /\
  (forall fuel t a kw,
     (4 <= fuel)%nat ->
     terminates (new_dataobject fuel t a kw) /\
     forall s, new_dataobject fuel t a kw s = new_dataobject 4 t a kw s) /\
  (forall a o extra kw s s1,
     new_parent 1 a (Some o) extra kw s = (s1, OutOfFuel) ->
     o ∈ origins_of s1 a /\
     exists t, t ∈ one_hop s1 o /\ a ∉ map e_obj (entries_of s1 t)) /\
  (forall t a kw s s1,
     new_dataobject 1 t a kw s = (s1, OutOfFuel) ->
     a ∈ map e_obj (entries_of s1 t) /\
     exists tr, trackers s1 !! t = Some tr /\
                rawdatacube tr ∉ origins_of s1 a).
Proof.
  split; [|split; [|split]].
  - intros fuel a p extra kw Hf.
    destruct fuel as [|[|[|fuel]]]; try lia.
    split; [apply terminates_new_parent | intros s; apply new_parent_fuel].
  - intros fuel t a kw Hf.
    destruct fuel as [|[|[|[|fuel]]]]; try lia.
    split; [apply terminates_new_dataobject
           | intros s; apply new_dataobject_fuel].
  - intros a o extra kw s s1.
    destruct extra as [|b extra]; [|by rewrite new_parent_extra].
    destruct (objs s !! a) as [oa|] eqn:Ha;
      [|by rewrite new_parent_missing_self].
    rewrite (new_parent_eq _ _ _ _ _ _ Ha). cbn zeta.
    destruct (py_in _ _); [done|].
    destruct (objs _ !! o) eqn:Ho; [|done].
    intros H. apply for_each_register_out_of_fuel in H as (-> & t & Ht & Hn).
    split; [|by exists t].
    unfold origins_of, parents_of. simpl. rewrite lookup_insert_eq. simpl.
    rewrite map_app. apply elem_of_app. right. by left.
  - intros t a kw s s1.
    destruct (objs s !! a) as [oa|] eqn:Ha;
      [|by rewrite new_dataobject_no_object].
    destruct (trackers s !! t) as [tr|] eqn:Ht;
      [|by erewrite new_dataobject_no_tracker].
    rewrite (new_dataobject_eq _ _ _ _ _ _ _ Ht Ha). cbn zeta.
    destruct (py_in _ _) eqn:Hin; [done|].
    assert (Hgo : forall x, new_parent 0 a (Some (rawdatacube tr)) x no_kwargs
                    (upd_tracker s t (with_entry tr (new_entry tr oa kw a)))
                  = (s1, OutOfFuel) ->
            a ∈ map e_obj (entries_of s1 t) /\
            exists tr', trackers s1 !! t = Some tr' /\
                        rawdatacube tr' ∉ origins_of s1 a).
    { intros x [= <-]. unfold entries_of. simpl. rewrite lookup_insert_eq.
      split.
      - simpl. rewrite map_app. apply elem_of_app. right. by left.
      - eexists. split; [done|]. simpl. by apply py_in_false. }
    destruct (kw_save_behavior kw); apply Hgo.
Qed.

Lemma registration_terminates_witness :
  snd (new_parent 3 1%nat (Some 0%nat) [] no_kwargs two_origins) <> OutOfFuel /\
  snd (new_dataobject 4 0%nat 1%nat no_kwargs two_origins) <> OutOfFuel /\
  (0%nat ∈ origins_of (fst (new_parent 1 1%nat (Some 0%nat) [] no_kwargs
                              two_origins)) 1%nat) /\
  (1%nat ∈ map e_obj (entries_of (fst (new_dataobject 1 0%nat 1%nat no_kwargs
                                         two_origins)) 0%nat)).
Proof.
  destruct registration_terminates as (H1 & H2 & H3 & H4).
  split.
  { destruct (H1 3%nat 1%nat (Some 0%nat) [] no_kwargs) as [H _]; [lia|].
    apply H. }
  split.
  { destruct (H2 4%nat 0%nat 1%nat no_kwargs) as [H _]; [lia|]. apply H. }
  split.
  - apply (H3 1%nat 0%nat [] no_kwargs two_origins). reflexivity.
  - apply (H4 0%nat 1%nat no_kwargs two_origins). reflexivity.
Defined.

(** ** The membership invariant *)

Lemma registry_invariant_pending a w s :
  registry_invariant s -> pending_invariant a w s.
Proof.
  intros H t tr Ht. specialize (H t tr Ht). simpl in *.
  eapply Forall_impl; [exact H|]. auto.
Qed.

Lemma pending_invariant_resolved a w s :
  pending_invariant a w s -> w ∈ origins_of s a -> registry_invariant s.
Proof.
  intros H Hw t tr Ht. specialize (H t tr Ht). simpl in *.
  eapply Forall_impl; [exact H|]. simpl.
  intros e [He|[-> ->]]; done.
Qed.

(** Both invariants survive any step that keeps the registries and loses no
    origin link. *)
Lemma pending_invariant_mono a w s s' :
  trackers s' = trackers s ->
  (forall x, origins_of s x ⊆ origins_of s' x) ->
  pending_invariant a w s -> pending_invariant a w s'.
Proof.
  intros Htr Hsub H t tr Ht. rewrite Htr in Ht.
  specialize (H t tr Ht). simpl in *.
  eapply Forall_impl; [exact H|]. simpl.
  intros e [He|He]; [left; by apply Hsub | by right].
Qed.

Lemma registry_invariant_mono s s' :
  trackers s' = trackers s ->
  (forall x, origins_of s x ⊆ origins_of s' x) ->
  registry_invariant s -> registry_invariant s'.
Proof.
  intros Htr Hsub H t tr Ht. rewrite Htr in Ht.
  specialize (H t tr Ht). simpl in *.
  eapply Forall_impl; [exact H|]. simpl.
  intros e He. by apply Hsub.
Qed.

Lemma origins_of_upd_obj_ne s a o x :
  x <> a -> origins_of (upd_obj s a o) x = origins_of s x.
Proof.
  intros Hx. unfold origins_of, parents_of. simpl.
  by rewrite lookup_insert_ne.
Qed.

Lemma origins_of_upd_obj_eq s a o :
  origins_of (upd_obj s a o) a = map fst (parents_and_save_behavior o).
Proof.
  unfold origins_of, parents_of. simpl. by rewrite lookup_insert_eq.
Qed.

Lemma origins_of_with_parent s a oa p x :
  objs s !! a = Some oa ->
  origins_of s x ⊆ origins_of (upd_obj s a (with_parent oa p)) x.
Proof.
  intros Ha. destruct (decide (x = a)) as [->|Hx].
  - rewrite origins_of_upd_obj_eq. unfold origins_of, parents_of.
    rewrite Ha. simpl. rewrite map_app. intros y Hy.
    apply elem_of_app. by left.
  - by rewrite origins_of_upd_obj_ne.
Qed.

Lemma origins_of_same_parents s a oa o' x :
  objs s !! a = Some oa ->
  parents_and_save_behavior o' = parents_and_save_behavior oa ->
  origins_of (upd_obj s a o') x = origins_of s x.
Proof.
  intros Ha Hp. destruct (decide (x = a)) as [->|Hx].
  - rewrite origins_of_upd_obj_eq. unfold origins_of, parents_of.
    by rewrite Ha, Hp.
  - by rewrite origins_of_upd_obj_ne.
Qed.

(** A new entry for [a] leaves only the link from [a] to the owner open. *)
Lemma pending_invariant_with_entry a s t tr e :
  trackers s !! t = Some tr -> e_obj e = a ->
  registry_invariant s ->
  pending_invariant a (rawdatacube tr) (upd_tracker s t (with_entry tr e)).
Proof.
  intros Ht He Hinv. unfold pending_invariant. simpl.
  apply map_Forall_insert_2.
  - simpl. apply Forall_app. split.
    + specialize (Hinv t tr Ht). simpl in Hinv.
      eapply Forall_impl; [exact Hinv|]. by left.
    + apply Forall_singleton. by right.
  - intros t' tr' Ht'. specialize (Hinv t' tr' Ht'). simpl in *.
    eapply Forall_impl; [exact Hinv|]. by left.
Qed.

Lemma new_dataobject_save_behavior_Ret fuel t a nm b s s' :
  new_dataobject fuel t a (mkKwargs nm (Some b)) s = (s', Ret tt) ->
  exists tr oa e,
    trackers s !! t = Some tr /\ objs s !! a = Some oa /\ e_obj e = a /\
    rawdatacube tr ∈ origins_of s a /\
    s' = upd_tracker s t (with_entry tr e).
Proof.
  destruct fuel as [|fuel]; [done|].
  destruct (objs s !! a) as [oa|] eqn:Ha;
    [|by rewrite new_dataobject_no_object].
  destruct (trackers s !! t) as [tr|] eqn:Ht;
    [|by erewrite new_dataobject_no_tracker].
  rewrite (new_dataobject_eq _ _ _ _ _ _ _ Ht Ha). cbn zeta.
  destruct (py_in _ _) eqn:Hin.
  - intros [= <-]. eexists tr, oa, _. repeat split; try done.
    by apply py_in_true.
  - simpl kw_save_behavior. cbv iota. destruct fuel; [done|].
    by rewrite new_parent_extra.
Qed.

Lemma register_if_absent_invariant fuel a sb t s s' :
  register_if_absent fuel a sb t s = (s', Ret tt) ->
  registry_invariant s -> registry_invariant s'.
Proof.
  destruct (trackers s !! t) as [tr|] eqn:Ht;
    [|by rewrite register_if_absent_no_tracker].
  rewrite (register_if_absent_eq _ _ _ _ _ _ Ht).
  destruct (py_in a _); [by intros [= <-]|].
  intros H Hinv.
  apply new_dataobject_save_behavior_Ret in H
    as (tr' & oa & e & Ht' & Ha & He & Hin & ->).
  apply (pending_invariant_resolved a (rawdatacube tr')); [|done].
  by apply pending_invariant_with_entry.
Qed.

Lemma for_each_register_invariant fuel a sb l s s' :
  for_each l (register_if_absent fuel a sb) s = (s', Ret tt) ->
  registry_invariant s -> registry_invariant s'.
Proof.
  revert s. induction l as [|t l IH]; intros s; simpl.
  - by intros [= <-].
  - intros H Hinv. apply bind_Ret_inv in H as (s1 & [] & H1 & H2).
    apply (IH s1); [done|]. by eapply register_if_absent_invariant.
Qed.

Lemma new_parent_Some_invariant fuel a w kw s s' :
  new_parent fuel a (Some w) [] kw s = (s', Ret tt) ->
  pending_invariant a w s -> registry_invariant s'.
Proof.
  destruct fuel as [|fuel]; [done|].
  destruct (objs s !! a) as [oa|] eqn:Ha;
    [|by rewrite new_parent_missing_self].
  rewrite (new_parent_eq _ _ _ _ _ _ Ha). cbn zeta.
  destruct (py_in _ _); [done|].
  destruct (objs _ !! w); [|done].
  intros H Hpend. apply for_each_register_invariant in H; [done|].
  apply (pending_invariant_resolved a w).
  - apply (pending_invariant_mono a w s); [done| |done].
    intros x. by apply origins_of_with_parent.
  - rewrite origins_of_upd_obj_eq. simpl. rewrite map_app.
    apply elem_of_app. right. by left.
Qed.

Lemma new_parent_None_state fuel a extra kw s :
  fst (new_parent fuel a None extra kw s) = s.
Proof.
  destruct fuel as [|fuel]; [done|]. destruct extra; [|done].
  cbn [new_parent]. unfold bind, get_obj.
  destruct (kw_save_behavior kw); [done|]. by destruct (objs s !! a).
Qed.

Lemma new_parent_invariant fuel a p extra kw s s' :
  new_parent fuel a p extra kw s = (s', Ret tt) ->
  registry_invariant s -> registry_invariant s'.
Proof.
  intros H Hinv. destruct p as [w|].
  - destruct extra as [|b extra].
    + eapply new_parent_Some_invariant; [done|].
      by apply registry_invariant_pending.
    + destruct fuel; [done|]. by rewrite new_parent_extra in H.
  - pose proof (new_parent_None_state fuel a extra kw s) as Hs.
    rewrite H in Hs. simpl in Hs. by subst.
Qed.

Lemma new_dataobject_invariant fuel t a kw s s' :
  new_dataobject fuel t a kw s = (s', Ret tt) ->
  registry_invariant s -> registry_invariant s'.
Proof.
  destruct fuel as [|fuel]; [done|].
  destruct (objs s !! a) as [oa|] eqn:Ha;
    [|by rewrite new_dataobject_no_object].
  destruct (trackers s !! t) as [tr|] eqn:Ht;
    [|by erewrite new_dataobject_no_tracker].
  rewrite (new_dataobject_eq _ _ _ _ _ _ _ Ht Ha). cbn zeta.
  intros H Hinv.
  pose proof (pending_invariant_with_entry a s t tr (new_entry tr oa kw a)
                Ht eq_refl Hinv) as Hpend.
  destruct (py_in _ _) eqn:Hin.
  - injection H as <-.
    apply (pending_invariant_resolved a (rawdatacube tr)); [done|].
    by apply py_in_true.
  - destruct (kw_save_behavior kw).
    + destruct fuel; [done|]. by rewrite new_parent_extra in H.
    + by eapply new_parent_Some_invariant.
Qed.

Lemma log_modification_invariant a s s' :
  log_modification a s = (s', Ret tt) ->
  registry_invariant s -> registry_invariant s'.
Proof.
  unfold log_modification, get_current_log_index. unfold bind at 1.
  intros H. apply bind_Ret_inv in H as (s1 & o & H1 & H2).
  apply get_obj_inv in H1 as [-> Ho].
  destruct (modification_log o); [|done]. injection H2 as <-.
  apply (registry_invariant_mono s); [done|].
  intros x. by erewrite origins_of_same_parents.
Qed.

Lemma DataObject_init_invariant fuel klass parent sb nm s s' a :
  DataObject_init fuel klass parent sb nm s = (s', Ret a) ->
  registry_invariant s -> registry_invariant s'.
Proof.
  unfold DataObject_init. intros H Hinv.
  apply bind_Ret_inv in H as (s0 & self & H0 & H).
  unfold alloc_obj in H0. injection H0 as <- <-.
  set (self := fresh (dom (objs s))) in *.
  apply bind_Ret_inv in H as (s1 & o & H1 & H).
  apply get_obj_inv in H1 as [-> _].
  apply bind_Ret_inv in H as (s1 & [] & H1 & H).
  apply bind_Ret_inv in H as (s2 & o' & H2 & H).
  apply get_obj_inv in H2 as [-> Ho'].
  apply bind_Ret_inv in H as (s2 & [] & H2 & H).
  unfold set_obj in H2. injection H2 as <-.
  apply bind_Ret_inv in H as (s3 & [] & H3 & H).
  injection H as <- _.
  eapply log_modification_invariant; [done|].
  apply (registry_invariant_mono s1); [done| |].
  { intros x. by erewrite origins_of_same_parents. }
  eapply new_parent_invariant; [done|].
  apply (registry_invariant_mono s); [done| |done].
  intros x. destruct (decide (x = self)) as [->|Hx].
  - unfold origins_of at 1, parents_of. unfold self.
    rewrite alloc_obj_fresh. intros y Hy. by apply elem_of_nil in Hy.
  - by rewrite origins_of_upd_obj_ne.
Qed.

Lemma DataObjectTracker_init_invariant rdc s s' t :
  DataObjectTracker_init rdc s = (s', Ret t) ->
  registry_invariant s -> registry_invariant s'.
Proof.
  unfold DataObjectTracker_init, alloc_tracker. intros [= <- _] Hinv.
  unfold registry_invariant. simpl. apply map_Forall_insert_2; [|done].
  simpl. constructor.
Qed.

(** X16.  The membership invariant is kept by every call that returns: if
    every entry of every registry references an artifact whose origin links
    contain the registry's owner, then this still holds when constructing
    an artifact, [new_parent], [new_dataobject], [log_modification] or
    constructing a registry has returned to its caller.  (A call that
    raises can leave the invariant false, and no later call restores it.) *)
Theorem registry_invariant_preserved (fuel : nat) (s s' : store) :
  registry_invariant s ->
  (forall klass parent sb nm a,
     DataObject_init fuel klass parent sb nm s = (s', Ret a) ->
     registry_invariant s') /\
  (forall a parent extra kw,
     new_parent fuel a parent extra kw s = (s', Ret tt) ->
     registry_invariant s') /\
  (forall t a kw,
     new_dataobject fuel t a kw s = (s', Ret tt) -> registry_invariant s') /\
  (forall a, log_modification a s = (s', Ret tt) -> registry_invariant s') /\
  (forall rdc t,
     DataObjectTracker_init rdc s = (s', Ret t) -> registry_invariant s').
Proof.
  intros Hinv. repeat split; intros.
  - by eapply DataObject_init_invariant.
  - by eapply new_parent_invariant.
  - by eapply new_dataobject_invariant.
  - by eapply log_modification_invariant.
  - by eapply DataObjectTracker_init_invariant.
Qed.

Lemma registry_invariant_two_origins : registry_invariant two_origins.
Proof. apply (bool_decide_unpack _). vm_compute. exact I. Defined.

Lemma registry_invariant_preserved_witness :
  let s1 := fst (DataObject_init 3 DataCube (Some 0%nat) (Some true)
                   (Some "dc") two_origins) in
  registry_invariant s1 /\
  registry_invariant (fst (new_dataobject 4 1%nat 2%nat no_kwargs s1)) /\
  registry_invariant (fst (new_parent 3 2%nat (Some 1%nat) []
                             (mkKwargs None (Some false)) s1)) /\
  registry_invariant (fst (log_modification 2%nat s1)) /\
  registry_invariant (fst (DataObjectTracker_init 2%nat s1)).
Proof.
  intros s1.
  assert (H1 : registry_invariant s1).
  { destruct (registry_invariant_preserved 3 two_origins s1
                registry_invariant_two_origins) as (H & _).
    apply (H DataCube (Some 0%nat) (Some true) (Some "dc") 2%nat).
    reflexivity. }
  split; [exact H1|]. split; [|split; [|split]].
  - destruct (registry_invariant_preserved 4 s1
                (fst (new_dataobject 4 1%nat 2%nat no_kwargs s1)) H1)
      as (_ & _ & H & _).
    apply (H 1%nat 2%nat no_kwargs). reflexivity.
  - destruct (registry_invariant_preserved 3 s1
                (fst (new_parent 3 2%nat (Some 1%nat) []
                        (mkKwargs None (Some false)) s1)) H1)
      as (_ & H & _).
    apply (H 2%nat (Some 1%nat) [] (mkKwargs None (Some false))). reflexivity.
  - destruct (registry_invariant_preserved 0 s1
                (fst (log_modification 2%nat s1)) H1)
      as (_ & _ & _ & H & _).
    apply (H 2%nat). reflexivity.
  - destruct (registry_invariant_preserved 0 s1
                (fst (DataObjectTracker_init 2%nat s1)) H1)
      as (_ & _ & _ & _ & H).
    apply (H 2%nat 2%nat). reflexivity.
Defined.

(** ** What the loop over the trackers does *)

Lemma entries_of_upd_tracker_eq s t tr :
  entries_of (upd_tracker s t tr) t = dataobject_list tr.
Proof. unfold entries_of. simpl. by rewrite lookup_insert_eq. Qed.

(** One round of the loop: nothing happens, or one entry for the artifact is
    appended to a tracker that did not contain it. *)
Lemma register_if_absent_effect fuel a sb t s s' r :
  register_if_absent fuel a sb t s = (s', r) ->
  (s' = s \/
   exists tr e, trackers s !! t = Some tr /\ e_obj e = a /\
                (a ∉ map e_obj (dataobject_list tr)) /\
                s' = upd_tracker s t (with_entry tr e)) /\
  (r = Ret tt -> a ∈ map e_obj (entries_of s' t)).
Proof.
  destruct (trackers s !! t) as [tr|] eqn:Ht.
  2: { rewrite (register_if_absent_no_tracker _ _ _ _ _ Ht).
       intros [= <- <-]. split; [by left | done]. }
  rewrite (register_if_absent_eq _ _ _ _ _ _ Ht).
  destruct (py_in a _) eqn:Hin.
  { intros [= <- <-]. split; [by left|]. intros _. by apply py_in_true. }
  apply py_in_false in Hin. unfold entries_of in Hin. rewrite Ht in Hin.
  destruct fuel as [|fuel].
  { intros [= <- <-]. split; [by left | done]. }
  destruct (objs s !! a) as [oa|] eqn:Ha.
  2: { rewrite (new_dataobject_no_object _ _ _ _ _ Ha).
       intros [= <- <-]. split; [by left | done]. }
  rewrite (new_dataobject_eq _ _ _ _ _ _ _ Ht Ha). cbn zeta.
  set (e := new_entry tr oa _ a).
  assert (Hs' : forall x : store * outcome unit,
            fst x = upd_tracker s t (with_entry tr e) -> x = (s', r) ->
            (s' = s \/
             exists tr0 e0, Some tr = Some tr0 /\ e_obj e0 = a /\
                            (a ∉ map e_obj (dataobject_list tr0)) /\
                            s' = upd_tracker s t (with_entry tr0 e0)) /\
            (r = Ret tt -> a ∈ map e_obj (entries_of s' t))).
  { intros x Hx ->. simpl in Hx. subst s'. split.
    - right. by exists tr, e.
    - intros _. rewrite entries_of_upd_tracker_eq. simpl.
      rewrite map_app. apply elem_of_app. right. by left. }
  destruct (py_in _ _); [by apply Hs'|].
  simpl kw_save_behavior. cbv iota.
  destruct fuel as [|fuel]; by apply Hs'.
Qed.

Lemma for_each_register_effect fuel a sb l s s' r :
  for_each l (register_if_absent fuel a sb) s = (s', r) ->
  objs s' = objs s /\
  (forall t, t ∉ l -> trackers s' !! t = trackers s !! t) /\
  (forall t, a ∈ map e_obj (entries_of s t) ->
             trackers s' !! t = trackers s !! t) /\
  (forall t tr, trackers s !! t = Some tr ->
                exists tr', trackers s' !! t = Some tr' /\
                            rawdatacube tr' = rawdatacube tr) /\
  (r = Ret tt -> forall t, t ∈ l -> a ∈ map e_obj (entries_of s' t)).
Proof.
  revert s. induction l as [|t l IH]; intros s; simpl.
  { intros [= <- <-]. repeat split; try done.
    - intros t tr Ht. by exists tr.
    - intros _ t Ht. by apply elem_of_nil in Ht. }
  unfold bind at 1.
  destruct (register_if_absent fuel a sb t s) as [s1 r1] eqn:Hstep.
  apply register_if_absent_effect in Hstep as [Hs1 Hr1].
  assert (Hobjs : objs s1 = objs s).
  { destruct Hs1 as [->|(tr & e & _ & _ & _ & ->)]; done. }
  assert (Hframe : forall t', t' <> t -> trackers s1 !! t' = trackers s !! t').
  { intros t' Hne. destruct Hs1 as [->|(tr & e & _ & _ & _ & ->)]; [done|].
    simpl. by rewrite lookup_insert_ne. }
  assert (Hkeep : forall t', a ∈ map e_obj (entries_of s t') ->
                             trackers s1 !! t' = trackers s !! t').
  { intros t' Hin. destruct Hs1 as [->|(tr & e & Ht & _ & Hn & ->)]; [done|].
    simpl. destruct (decide (t' = t)) as [->|Hne];
      [|by rewrite lookup_insert_ne].
    unfold entries_of in Hin. by rewrite Ht in Hin. }
  assert (Hown : forall t' tr, trackers s !! t' = Some tr ->
                 exists tr', trackers s1 !! t' = Some tr' /\
                             rawdatacube tr' = rawdatacube tr).
  { intros t' tr' Ht'.
    destruct Hs1 as [->|(tr & e & Ht & _ & Hn & ->)]; [by exists tr'|].
    simpl. destruct (decide (t' = t)) as [->|Hne].
    - rewrite lookup_insert_eq. eexists. split; [done|].
      rewrite Ht in Ht'. by injection Ht' as ->.
    - rewrite lookup_insert_ne by done. by exists tr'. }
  assert (Hgrow : forall t', a ∈ map e_obj (entries_of s t') ->
                             a ∈ map e_obj (entries_of s1 t')).
  { intros t' Hin. unfold entries_of. by rewrite (Hkeep t' Hin). }
  destruct r1 as [[]|e|].
  - intros H. destruct (IH s1 H) as (IH1 & IH2 & IH3 & IH4 & IH5).
    split; [congruence|]. split; [|split; [|split]].
    + intros t' Hn. apply not_elem_of_cons in Hn as [Hne Hn].
      rewrite (IH2 t' Hn). by apply Hframe.
    + intros t' Hin. rewrite (IH3 t' (Hgrow t' Hin)). by apply Hkeep.
    + intros t' tr Ht'. destruct (Hown t' tr Ht') as (tr1 & Ht1 & Ho1).
      destruct (IH4 t' tr1 Ht1) as (tr2 & Ht2 & Ho2).
      exists tr2. split; [done | congruence].
    + intros Hr t' Hin. apply elem_of_cons in Hin as [->|Hin].
      * specialize (Hr1 eq_refl). unfold entries_of.
        by rewrite (IH3 t Hr1).
      * by apply IH5.
  - intros [= <- <-]. split; [done|]. split; [|split; [|split]]; try done.
    intros t' Hn. apply not_elem_of_cons in Hn as [Hne Hn]. by apply Hframe.
  - intros [= <- <-]. split; [done|]. split; [|split; [|split]]; try done.
    intros t' Hn. apply not_elem_of_cons in Hn as [Hne Hn]. by apply Hframe.
Qed.

(** ** Construction *)

Lemma tracker_attr_upd_obj s a o r :
  dataobjecttracker o = tracker_attr s a ->
  tracker_attr (upd_obj s a o) r = tracker_attr s r.
Proof.
  intros Ho. unfold tracker_attr in *. simpl.
  destruct (decide (r = a)) as [->|Hne].
  - by rewrite lookup_insert_eq.
  - by rewrite lookup_insert_ne.
Qed.

Lemma one_hop_upd_obj_ne s a o' o :
  o <> a -> dataobjecttracker o' = tracker_attr s a ->
  one_hop (upd_obj s a o') o = one_hop s o.
Proof.
  intros Hne Ho'. unfold one_hop.
  rewrite origins_of_upd_obj_ne by done.
  rewrite tracker_attr_upd_obj by done. f_equal. f_equal.
  apply map_ext. intros p. by rewrite tracker_attr_upd_obj.
Qed.

Lemma get_save_behavior_single a oa o b s :
  objs s !! a = Some oa -> parents_and_save_behavior oa = [(o, b)] ->
  get_save_behavior a o s = (s, Ret b).
Proof.
  intros Ha Hp. unfold get_save_behavior.
  assert (Hps : get_parent_list a s = (s, Ret [o])).
  { rewrite (get_parent_list_eq _ _ _ Ha). unfold origins_of, parents_of.
    by rewrite Ha, Hp. }
  rewrite (bind_eq _ _ _ _ _ Hps). unfold py_in. simpl.
  rewrite bool_decide_eq_true_2 by done. simpl.
  unfold bind at 1. unfold ret at 1.
  rewrite (bind_eq _ _ _ _ _ Hps). simpl.
  rewrite bool_decide_eq_true_2 by done.
  unfold bind at 1. unfold ret at 1.
  rewrite (bind_eq _ _ _ _ _ (get_obj_Some _ _ _ Ha)). by rewrite Hp.
Qed.

(** The loop completes when every tracker it visits exists and is owned by
    an origin the artifact is linked to. *)
Lemma for_each_register_returns fuel a oa sb l s :
  objs s !! a = Some oa ->
  (forall t, t ∈ l -> exists tr, trackers s !! t = Some tr /\
                                 rawdatacube tr ∈ origins_of s a) ->
  exists s', for_each l (register_if_absent (S fuel) a sb) s = (s', Ret tt).
Proof.
  revert s. induction l as [|t l IH]; intros s Ha Hl; simpl; [by eexists|].
  destruct (Hl t) as (tr & Ht & Hown); [by left|].
  assert (Hstep : exists s1,
    register_if_absent (S fuel) a sb t s = (s1, Ret tt)).
  { rewrite (register_if_absent_eq _ _ _ _ _ _ Ht).
    destruct (py_in a _); [by eexists|].
    rewrite (new_dataobject_eq _ _ _ _ _ _ _ Ht Ha). cbn zeta.
    apply py_in_true in Hown. rewrite Hown. by eexists. }
  destruct Hstep as [s1 Hstep]. rewrite (bind_eq _ _ _ _ _ Hstep).
  pose proof (for_each_register_effect (S fuel) a sb [t] s s1 (Ret tt)) as He.
  simpl in He. rewrite (bind_eq _ _ _ _ _ Hstep) in He.
  destruct (He eq_refl) as (Hobjs & _ & _ & Hkeep & _).
  apply IH.
  - by rewrite Hobjs.
  - intros t' Ht'. destruct (Hl t') as (tr' & Htr' & Hown'); [by right|].
    destruct (Hkeep t' tr' Htr') as (tr1 & Htr1 & Ho1).
    exists tr1. split; [done|]. rewrite Ho1.
    unfold origins_of, parents_of in *. by rewrite Hobjs.
Qed.

(** The state in which [__init__] calls [new_parent]: the new instance is
    allocated and linked to nothing. *)
Lemma DataObject_init_start klass sb nm s o t :
  tracker_attr s o = Some t ->
  let a := fresh (dom (objs s)) in
  let o_new := mkDataObject klass (default true sb) (default "" nm) []
                 None None in
  let s0 := upd_obj s a o_new in
  let s0' := upd_obj s0 a (with_parent o_new (o, default true sb)) in
  o <> a /\ objs s0 !! a = Some o_new /\ origins_of s0 a = [] /\
  is_Some (objs s0' !! o) /\ one_hop s0' o = one_hop s o /\
  trackers s0' = trackers s /\
  objs s0' !! a = Some (with_parent o_new (o, default true sb)).
Proof.
  intros Ht a o_new s0 s0'.
  assert (Hfresh : objs s !! a = None) by apply alloc_obj_fresh.
  assert (Hne : o <> a).
  { intros ->. unfold tracker_attr in Ht. by rewrite Hfresh in Ht. }
  assert (Ha0 : objs s0 !! a = Some o_new) by (simpl; apply lookup_insert_eq).
  split; [done|]. split; [done|]. split.
  { unfold origins_of, parents_of. by rewrite Ha0. }
  split.
  { simpl. rewrite !lookup_insert_ne by done. unfold tracker_attr in Ht.
    by destruct (objs s !! o). }
  split.
  { unfold s0'. rewrite one_hop_upd_obj_ne; [|done|].
    - unfold s0. rewrite one_hop_upd_obj_ne; [done|done|].
      unfold tracker_attr. by rewrite Hfresh.
    - unfold tracker_attr. by rewrite Ha0. }
  split; [done|]. simpl. apply lookup_insert_eq.
Qed.

Lemma DataObject_init_postcondition fuel klass o sb nm s t s' a :
  tracker_attr s o = Some t ->
  DataObject_init fuel klass (Some o) sb nm s = (s', Ret a) ->
  contains_dataobject t a s' = (s', Ret true) /\
  has_parent a o s' = (s', Ret true) /\
  get_save_behavior a o s' = (s', Ret (default true sb)).
Proof.
  intros Ht H.
  destruct (DataObject_init_start klass sb nm s o t Ht)
    as (Hne & Ha0 & Hor0 & Ho0' & Hhop & Htr0' & Ha0').
  unfold DataObject_init in H.
  apply bind_Ret_inv in H as (s0 & self & H0 & H).
  unfold alloc_obj in H0. injection H0 as <- <-.
  set (self := fresh (dom (objs s))) in *.
  rewrite (bind_eq _ _ _ _ _ (get_obj_Some _ _ _ Ha0)) in H.
  apply bind_Ret_inv in H as (s1 & [] & H1 & H).
  destruct fuel as [|fuel]; [done|].
  rewrite (new_parent_eq _ _ _ _ _ _ Ha0) in H1. cbn zeta in H1.
  rewrite Hor0 in H1. simpl in H1.
  destruct Ho0' as [oo Ho0']. simpl in Ho0'. rewrite Ho0' in H1.
  apply for_each_register_effect in H1 as (Hobjs & _ & _ & _ & Hin).
  specialize (Hin eq_refl t). simpl in Hhop. rewrite Hhop in Hin.
  assert (Hcont : self ∈ map e_obj (entries_of s1 t)).
  { apply Hin. unfold one_hop. rewrite Ht. by left. }
  clear Hin.
  assert (Ha1 : objs s1 !! self
                = Some (with_parent
                          (mkDataObject klass (default true sb)
                             (default "" nm) [] None None)
                          (o, default true sb))).
  { rewrite Hobjs. exact Ha0'. }
  rewrite (bind_eq _ _ _ _ _ (get_obj_Some _ _ _ Ha1)) in H.
  unfold bind at 1 in H. unfold set_obj at 1 in H.
  set (o2 := mkDataObject _ _ _ _ (Some []) _) in H.
  set (s2 := upd_obj s1 self o2) in H.
  assert (Ha2 : objs s2 !! self = Some o2) by (simpl; apply lookup_insert_eq).
  destruct (log_modification_appends s2 self o2 [] Ha2 eq_refl)
    as (s3 & Hrun & _ & _ & Htr3 & Hps3).
  rewrite (bind_eq _ _ _ _ _ Hrun) in H. injection H as <- <-.
  assert (Hps : parents_of s3 self = [(o, default true sb)]).
  { rewrite Hps3. unfold parents_of. by rewrite Ha2. }
  assert (Hent : entries_of s3 t = entries_of s1 t).
  { unfold entries_of. by rewrite Htr3. }
  unfold parents_of in Hps.
  destruct (objs s3 !! self) as [o3|] eqn:Ha3; [|done].
  split; [|split].
  - destruct (trackers s3 !! t) as [tr|] eqn:Htr.
    + rewrite (contains_dataobject_eq _ _ _ _ Htr). rewrite Hent.
      apply py_in_true in Hcont. by rewrite Hcont.
    + unfold entries_of in Hcont. rewrite Htr3 in Htr. simpl in Htr.
      rewrite Htr in Hcont. by apply elem_of_nil in Hcont.
  - rewrite (has_parent_eq _ _ _ _ Ha3). unfold origins_of, parents_of.
    rewrite Ha3, Hps. unfold py_in. simpl.
    by rewrite bool_decide_eq_true_2.
  - by apply (get_save_behavior_single _ o3).
Qed.

Lemma DataObject_init_returns fuel klass o sb nm s t :
  tracker_attr s o = Some t ->
  (forall t', t' ∈ one_hop s o ->
              exists tr, trackers s !! t' = Some tr /\ rawdatacube tr = o) ->
  exists s' a,
    DataObject_init (S (S fuel)) klass (Some o) sb nm s = (s', Ret a).
Proof.
  intros Ht Hown.
  destruct (DataObject_init_start klass sb nm s o t Ht)
    as (Hne & Ha0 & Hor0 & Ho0' & Hhop & Htr0' & Ha0').
  unfold DataObject_init. unfold bind at 1. unfold alloc_obj at 1.
  set (self := fresh (dom (objs s))) in *.
  rewrite (bind_eq _ _ _ _ _ (get_obj_Some _ _ _ Ha0)).
  set (o_new := mkDataObject klass _ _ _ _ _) in *.
  set (s0 := upd_obj s self o_new) in *.
  set (s0' := upd_obj s0 self (with_parent o_new (o, default true sb))) in *.
  destruct (for_each_register_returns fuel self
              (with_parent o_new (o, default true sb)) (default true sb)
              (one_hop s0' o) s0' Ha0') as [s1 Hloop].
  { intros t' Ht'. rewrite Hhop in Ht'.
    destruct (Hown t' Ht') as (tr & Htr & Ho).
    exists tr. split; [by rewrite Htr0'|].
    rewrite Ho. unfold origins_of, parents_of. rewrite Ha0'. simpl. by left. }
  assert (Hnp : new_parent (S (S fuel)) self (Some o) []
                  (mkKwargs None (Some (save_behavior o_new))) s0
                = (s1, Ret tt)).
  { rewrite (new_parent_eq _ _ _ _ _ _ Ha0). cbn zeta.
    rewrite Hor0. simpl py_in. cbv iota.
    change (default (save_behavior o_new)
              (kw_save_behavior
                 (mkKwargs None (Some (save_behavior o_new)))))
      with (default true sb).
    destruct Ho0' as [oo Ho0']. fold s0'. by rewrite Ho0'. }
  rewrite (bind_eq _ _ _ _ _ Hnp).
  apply for_each_register_effect in Hloop as (Hobjs & _).
  assert (Ha1 : objs s1 !! self
                = Some (with_parent o_new (o, default true sb)))
    by by rewrite Hobjs.
  rewrite (bind_eq _ _ _ _ _ (get_obj_Some _ _ _ Ha1)).
  unfold bind at 1. unfold set_obj at 1.
  set (o2 := mkDataObject _ _ _ _ (Some []) _).
  set (s2 := upd_obj s1 self o2).
  assert (Ha2 : objs s2 !! self = Some o2) by (simpl; apply lookup_insert_eq).
  destruct (log_modification_appends s2 self o2 [] Ha2 eq_refl)
    as (s3 & Hrun & _).
  rewrite (bind_eq _ _ _ _ _ Hrun). by exists s3, self.
Qed.

(** C4.  Let [o] be an origin that owns the registry [t].  Every artifact
    [a] whose construction with origin [o] and save behaviour [b] (given, or
    True by default) has returned is contained in [t], has [o] as a parent,
    and has save behaviour [b] for [o].  The construction does return
    whenever every tracker reached from [o] exists and is owned by [o]. *)
Theorem construction_postcondition (fuel : nat) (klass : pyclass) (o : ref)
    (sb : option bool) (nm : option string) (s : store) (t : tref) :
  tracker_attr s o = Some t ->
  (forall s' a,
     DataObject_init fuel klass (Some o) sb nm s = (s', Ret a) ->
     contains_dataobject t a s' = (s', Ret true) /\
     has_parent a o s' = (s', Ret true) /\
     get_save_behavior a o s' = (s', Ret (default true sb))) /\
  ((2 <= fuel)%nat ->
   (forall t', t' ∈ one_hop s o ->
               exists tr, trackers s !! t' = Some tr /\ rawdatacube tr = o) ->
   exists s' a, DataObject_init fuel klass (Some o) sb nm s = (s', Ret a)).
Proof.
  intros Ht. split.
  - intros s' a H. by eapply DataObject_init_postcondition.
  - intros Hf Hown. destruct fuel as [|[|fuel]]; try lia.
    by eapply DataObject_init_returns.
Qed.

Lemma construction_postcondition_witness :
  let r := DataObject_init 2 DataCube (Some 0%nat) (Some false) (Some "dc")
             two_origins in
  (exists s' a, r = (s', Ret a)) /\
  contains_dataobject 0%nat 2%nat (fst r) = (fst r, Ret true) /\
  has_parent 2%nat 0%nat (fst r) = (fst r, Ret true) /\
  get_save_behavior 2%nat 0%nat (fst r) = (fst r, Ret false).
Proof.
  intros r.
  destruct (construction_postcondition 2 DataCube 0%nat (Some false)
              (Some "dc") two_origins 0%nat eq_refl) as [H1 H2].
  split.
  - apply H2; [lia|].
    intros t' Ht'. apply list_elem_of_singleton in Ht' as ->.
    by exists (mkTracker 0%nat []).
  - apply (H1 (fst r) 2%nat). reflexivity.
Defined.

(** ** The targets of the propagation *)

Lemma one_hop_with_parent s a oa o sb t :
  objs s !! a = Some oa ->
  t ∈ one_hop (upd_obj s a (with_parent oa (o, sb))) o <-> t ∈ one_hop s o.
Proof.
  intros Ha.
  assert (Hattr : dataobjecttracker (with_parent oa (o, sb))
                  = tracker_attr s a).
  { unfold tracker_attr. by rewrite Ha. }
  destruct (decide (o = a)) as [->|Hne];
    [|by rewrite one_hop_upd_obj_ne].
  unfold one_hop. rewrite tracker_attr_upd_obj by done.
  rewrite origins_of_upd_obj_eq. simpl. rewrite !map_app, concat_app.
  simpl. rewrite app_nil_r.
  rewrite (tracker_attr_upd_obj s a _ a Hattr).
  replace (map fst (parents_and_save_behavior oa)) with (origins_of s a)
    by (unfold origins_of, parents_of; by rewrite Ha).
  rewrite (map_ext (fun p => option_to_list
                               (tracker_attr (upd_obj s a
                                  (with_parent oa (a, sb))) p))
                   (fun p => option_to_list (tracker_attr s p)))
    by (intros p; by rewrite tracker_attr_upd_obj).
  rewrite !elem_of_app. tauto.
Qed.

(** C6 as the specification states it fails.  Dataset 1 owns registry 1 and
    is linked to origin 2: its own registry is not a target.  Dataset 2 is
    linked to dataset 1, whose origin 0 owns registry 0: that registry gets
    an entry although it belongs neither to dataset 2 nor to dataset 1. *)
Lemma one_hop_targets_counterexample :
  ~ spec_one_hop_propagation 3 nested_origins 1%nat 2%nat true /\
  ~ spec_one_hop_propagation 3 nested_origins 2%nat 1%nat true.
Proof.
  split; intros [H1 H2].
  - specialize (H1 1%nat). vm_compute in H1.
    assert (Hin : 1%nat ∈ [1%nat; 2%nat]) by (by left).
    apply H1 in Hin. by apply elem_of_nil in Hin.
  - specialize (H2 0%nat).
    assert (Hn : 0%nat ∉ spec_one_hop_targets nested_origins 2%nat 1%nat).
    { apply (bool_decide_unpack _). vm_compute. exact I. }
    apply H2 in Hn. vm_compute in Hn. discriminate Hn.
Qed.

(** C6, amended.  [a.new_parent(o)] with save behaviour [b] looks at the
    tracker of [o], if [o] has one, and at the trackers of the direct
    parents of [o].  No other registry is touched, a registry that already
    contains [a] is not touched either, and when the call returns every one
    of those registries contains [a] and [a] has gained the link [(o, b)]. *)
Theorem one_hop_propagation (fuel : nat) (s : store) (a o : ref)
    (kw : kwargs) (s' : store) (r : outcome unit) :
  new_parent fuel a (Some o) [] kw s = (s', r) ->
  (forall t, t ∉ one_hop s o -> trackers s' !! t = trackers s !! t) /\
  (forall t, a ∈ map e_obj (entries_of s t) ->
             trackers s' !! t = trackers s !! t) /\
  (r = Ret tt ->
   forall t, t ∈ one_hop s o -> a ∈ map e_obj (entries_of s' t)) /\
  (r = Ret tt ->
   forall oa, objs s !! a = Some oa ->
     parents_of s' a
     = parents_of s a ++
       [(o, default (save_behavior oa) (kw_save_behavior kw))]).
Proof.
  destruct fuel as [|fuel]; [by intros [= <- <-]|].
  destruct (objs s !! a) as [oa|] eqn:Ha.
  2: { rewrite (new_parent_missing_self _ _ _ _ _ Ha). by intros [= <- <-]. }
  rewrite (new_parent_eq _ _ _ _ _ _ Ha). cbn zeta.
  destruct (py_in _ _); [by intros [= <- <-]|].
  set (sb := default _ _). set (s1 := upd_obj s a (with_parent oa (o, sb))).
  destruct (objs s1 !! o) eqn:Ho; [|by intros [= <- <-]].
  intros H.
  apply for_each_register_effect in H as (Hobjs & Hframe & Hkeep & _ & Hin).
  split; [|split; [|split]].
  - intros t Ht. rewrite Hframe; [done|].
    intros Hc. apply Ht. by apply (one_hop_with_parent s a oa o sb t Ha).
  - intros t Ht. by rewrite Hkeep.
  - intros Hr t Ht. apply Hin; [done|].
    by apply (one_hop_with_parent s a oa o sb t Ha).
  - intros _ oa' [= <-].
    unfold parents_of. rewrite Hobjs, Ha. simpl.
    by rewrite lookup_insert_eq.
Qed.

Lemma one_hop_propagation_witness :
  let x := new_parent 3 1%nat (Some 2%nat) [] (mkKwargs None (Some true))
             nested_origins in
  trackers (fst x) !! 1%nat = trackers nested_origins !! 1%nat /\
  trackers (fst x) !! 0%nat = trackers nested_origins !! 0%nat /\
  1%nat ∈ map e_obj (entries_of (fst x) 2%nat) /\
  parents_of (fst x) 1%nat = [(0%nat, true); (2%nat, true)].
Proof.
  intros x.
  destruct (one_hop_propagation 3 nested_origins 1%nat 2%nat
              (mkKwargs None (Some true)) (fst x) (Ret tt) eq_refl)
    as (H1 & H2 & H3 & H4).
  split; [|split; [|split]].
  - apply H1. apply (bool_decide_unpack _). vm_compute. exact I.
  - apply H2. vm_compute. by left.
  - apply H3; [done|]. vm_compute. by left.
  - apply (H4 eq_refl (origin_obj [(0%nat, true)] (Some 1%nat))). reflexivity.
Defined.

(** C2 on the code: after [new_parent(o, save_behavior=True)] on artifact 1
    and origin 0, the call [new_parent(o, save_behavior=False)] raises
    TypeError and changes nothing; the save behaviour for [o] is still True,
    where the claim has False. *)
Theorem second_new_parent_raises :
  let kw b := mkKwargs None (Some b) in
  let x := new_parent 3 1%nat (Some 0%nat) [] (kw true) two_origins in
  snd x = Ret tt /\
  new_parent 3 1%nat (Some 0%nat) [] (kw false) (fst x)
    = (fst x, Raise TypeError) /\
  parents_of (fst x) 1%nat = [(0%nat, true)] /\
  get_save_behavior 1%nat 0%nat (fst x) = (fst x, Ret true) /\
  map e_obj (entries_of (fst x) 0%nat) = [1%nat].
Proof. repeat split; reflexivity. Qed.

(** C3 on the code: artifact 2 is constructed with origin 0; registering it
    in the registry of origin 1 with [save_behavior=False] appends the entry
    and then raises TypeError, so the artifact is in the registry of
    origin 1 without origin 1 among its parents. *)
Theorem register_with_save_behavior_raises :
  let s1 := fst (DataObject_init 2 DataCube (Some 0%nat) (Some true)
                   (Some "dc") two_origins) in
  let x := new_dataobject 4 1%nat 2%nat (mkKwargs None (Some false)) s1 in
  has_parent 2%nat 0%nat s1 = (s1, Ret true) /\
  contains_dataobject 1%nat 2%nat s1 = (s1, Ret false) /\
  snd x = Raise TypeError /\
  has_parent 2%nat 1%nat (fst x) = (fst x, Ret false) /\
  get_save_behavior 2%nat 1%nat (fst x) = (fst x, Raise AssertionError) /\
  contains_dataobject 1%nat 2%nat (fst x) = (fst x, Ret true) /\
  ~ registry_invariant (fst x).
Proof.
  repeat split; try reflexivity.
  intros H. specialize (H 1%nat). vm_compute in H.
  specialize (H _ eq_refl). apply Forall_inv in H.
  change (1%nat ∈ [0%nat]) in H. apply list_elem_of_singleton in H.
  discriminate H.
Qed.

(** ** Save behaviour of a link *)

Lemma first_index_elem x l : x ∈ l -> exists i, first_index x l = Some i.
Proof.
  induction l as [|y l IH]; intros Hx; [by apply elem_of_nil in Hx|].
  simpl. case_bool_decide; [by eexists|].
  apply elem_of_cons in Hx as [->|Hx]; [done|].
  destruct (IH Hx) as [i ->]. by eexists.
Qed.

Lemma first_index_lookup x (ps : list (nat * bool)) i :
  first_index x (map fst ps) = Some i -> exists b, ps !! i = Some (x, b).
Proof.
  revert i. induction ps as [|[y b] ps IH]; intros i; simpl; [done|].
  case_bool_decide as Hxy.
  - intros [= <-]. subst. by exists b.
  - destruct (first_index x (map fst ps)) as [j|]; [|done].
    intros [= <-]. by apply IH.
Qed.

Lemma NoDup_fst_unique (ps : list (nat * bool)) x b b' :
  NoDup (map fst ps) -> (x, b) ∈ ps -> (x, b') ∈ ps -> b = b'.
Proof.
  induction ps as [|[y c] ps IH]; intros Hnd H1 H2;
    [by apply elem_of_nil in H1|].
  simpl in Hnd. apply NoDup_cons in Hnd as [Hy Hnd].
  apply elem_of_cons in H1 as [H1|H1]; apply elem_of_cons in H2 as [H2|H2].
  - congruence.
  - injection H1 as -> ->. exfalso. apply Hy.
    apply list_elem_of_fmap. by exists (y, b').
  - injection H2 as -> ->. exfalso. apply Hy.
    apply list_elem_of_fmap. by exists (y, b).
  - by apply IH.
Qed.

Lemma get_save_behavior_at a oa o i b s :
  objs s !! a = Some oa ->
  first_index o (origins_of s a) = Some i ->
  parents_and_save_behavior oa !! i = Some (o, b) ->
  get_save_behavior a o s = (s, Ret b).
Proof.
  intros Ha Hi Hb. unfold get_save_behavior.
  rewrite (bind_eq _ _ _ _ _ (get_parent_list_eq _ _ _ Ha)).
  assert (Hin : py_in o (origins_of s a) = true).
  { apply py_in_true. unfold origins_of, parents_of. rewrite Ha.
    apply list_elem_of_fmap. exists (o, b). split; [done|].
    by eapply list_elem_of_lookup_2. }
  rewrite Hin. simpl py_assert. unfold bind at 1. unfold ret at 1.
  rewrite (bind_eq _ _ _ _ _ (get_parent_list_eq _ _ _ Ha)).
  unfold list_index. rewrite Hi. unfold bind at 1. unfold ret at 1.
  rewrite (bind_eq _ _ _ _ _ (get_obj_Some _ _ _ Ha)).
  rewrite (bind_eq _ _ s s (o, b)); [done|].
  apply py_getitem_nonneg; [lia|]. by rewrite Nat2Z.id.
Qed.

(** X1.  [get_save_behavior] on an artifact: for a parent that is not in the
    parent list the assertion fails and the state is left alone; for a
    parent in the list the call returns the boolean of a link to that
    parent; and when the parent list has no duplicates, it returns the
    boolean of the link. *)
Theorem get_save_behavior_total (s : store) (a o : ref) (oa : DataObject) :
  objs s !! a = Some oa ->
  (o ∉ origins_of s a ->
   get_save_behavior a o s = (s, Raise AssertionError)) /\
  (o ∈ origins_of s a ->
   exists b, get_save_behavior a o s = (s, Ret b) /\ (o, b) ∈ parents_of s a) /\
  (forall b, NoDup (origins_of s a) -> (o, b) ∈ parents_of s a ->
             get_save_behavior a o s = (s, Ret b)).
Proof.
  intros Ha.
  assert (Hret : o ∈ origins_of s a ->
    exists b, get_save_behavior a o s = (s, Ret b) /\ (o, b) ∈ parents_of s a).
  { intros Hin. destruct (first_index_elem _ _ Hin) as [i Hi].
    pose proof Hi as Hi'. unfold origins_of, parents_of in Hi'.
    rewrite Ha in Hi'. apply first_index_lookup in Hi' as [b Hb].
    exists b. split; [by eapply get_save_behavior_at|].
    unfold parents_of. rewrite Ha. by eapply list_elem_of_lookup_2. }
  split; [|split; [done|]].
  - intros Hn. apply py_in_false in Hn. unfold get_save_behavior.
    rewrite (bind_eq _ _ _ _ _ (get_parent_list_eq _ _ _ Ha)).
    by rewrite Hn.
  - intros b Hnd Hb.
    assert (Hin : o ∈ origins_of s a).
    { unfold origins_of. apply list_elem_of_fmap. by exists (o, b). }
    destruct (Hret Hin) as (b' & Hrun & Hb'). rewrite Hrun.
    by rewrite (NoDup_fst_unique _ _ _ _ Hnd Hb Hb').
Qed.

Lemma get_save_behavior_total_witness :
  get_save_behavior 2%nat 5%nat three_entries
    = (three_entries, Raise AssertionError) /\
  get_save_behavior 2%nat 0%nat three_entries = (three_entries, Ret false).
Proof.
  destruct (get_save_behavior_total three_entries 2%nat 5%nat
              (mkDataObject PointList false "" [(0%nat, false)]
                 (Some [2]) None) eq_refl) as (H1 & _ & _).
  destruct (get_save_behavior_total three_entries 2%nat 0%nat
              (mkDataObject PointList false "" [(0%nat, false)]
                 (Some [2]) None) eq_refl) as (_ & _ & H3).
  split.
  - apply H1. apply (bool_decide_unpack _). vm_compute. exact I.
  - apply H3.
    + apply (bool_decide_unpack _). vm_compute. exact I.
    + vm_compute. by left.
Defined.

(** X2.  [change_save_behavior] never returns and never changes the state:
    it raises for every artifact, parent and boolean, and for a parent that
    is in the parent list the exception is the TypeError of [index()]. *)
Theorem change_save_behavior_never_updates (a o : ref) (b : bool)
    (s : store) :
  exists e, change_save_behavior a o b s = (s, Raise e) /\
            (o ∈ origins_of s a -> e = TypeError).
Proof.
  unfold change_save_behavior.
  destruct (objs s !! a) as [oa|] eqn:Ha.
  - rewrite (bind_eq _ _ _ _ _ (get_parent_list_eq _ _ _ Ha)).
    destruct (py_in o (origins_of s a)) eqn:Hin.
    + exists TypeError. split; [|done]. simpl py_assert.
      unfold bind at 1. unfold ret at 1.
      by rewrite (bind_eq _ _ _ _ _ (get_parent_list_eq _ _ _ Ha)).
    + exists AssertionError. split; [done|].
      intros Ho. apply py_in_true in Ho. congruence.
  - exists AttributeError. split.
    + apply bind_raise. unfold get_parent_list. apply bind_raise.
      by apply get_obj_None.
    + unfold origins_of, parents_of. rewrite Ha. intros Ho.
      by apply elem_of_nil in Ho.
Qed.

Lemma change_save_behavior_never_updates_witness :
  change_save_behavior 2%nat 0%nat true three_entries
  = (three_entries, Raise TypeError).
Proof.
  destruct (change_save_behavior_never_updates 2%nat 0%nat true three_entries)
    as (e & Hrun & He).
  rewrite Hrun. f_equal. f_equal. apply He. vm_compute. by left.
Defined.

(** ** Lookup by name *)

Lemma prefix_spec n h :
  String.prefix n h = true <-> exists post, h = (n ++ post)%string.
Proof.
  revert h. induction n as [|c n IH]; intros h; simpl.
  - destruct h; split; eauto.
  - destruct h as [|d h]; simpl.
    + split; [done | by intros [post ?]].
    + destruct (Ascii.ascii_dec c d) as [->|Hne].
      * rewrite IH. split; intros [post Hp]; exists post.
        -- simpl. by rewrite Hp.
        -- simpl in Hp. by injection Hp.
      * split; [done|]. intros [post Hp]. simpl in Hp. by injection Hp.
Qed.

Lemma string_append_empty (x : string) : (x ++ "")%string = x.
Proof.
  induction x as [|c x IH]; [done|].
  change (String c (x ++ "")%string = String c x). by rewrite IH.
Qed.

Lemma is_substring_spec n h :
  is_substring n h = true
  <-> exists pre post, h = (pre ++ n ++ post)%string.
Proof.
  induction h as [|d h IH]; cbn [is_substring].
  - rewrite orb_false_r, prefix_spec. split.
    + intros [post Hp]. by exists "", post.
    + intros (pre & post & Hp). destruct pre; [|done]. by exists post.
  - rewrite orb_true_iff, prefix_spec, IH. split.
    + intros [[post Hp]|(pre & post & Hp)].
      * by exists "", post.
      * exists (String d pre), post. simpl. by rewrite Hp.
    + intros (pre & post & Hp). destruct pre as [|c pre]; simpl in Hp.
      * left. by exists post.
      * right. injection Hp as _ Hp. by exists pre, post.
Qed.

Lemma filter_sublist_impl {A} (f g : A -> bool) l :
  (forall x, f x = true -> g x = true) ->
  List.filter f l `sublist_of` List.filter g l.
Proof.
  intros Hfg. induction l as [|x l IH]; simpl; [constructor|].
  destruct (f x) eqn:Hf.
  - rewrite (Hfg x Hf). by constructor.
  - destruct (g x); [by constructor | done].
Qed.

Lemma filter_sublist_list {A} (f : A -> bool) l :
  List.filter f l `sublist_of` l.
Proof.
  induction l as [|x l IH]; simpl; [constructor|].
  destruct (f x); by constructor.
Qed.

Lemma sublist_map {A B} (f : A -> B) (l1 l2 : list A) :
  l1 `sublist_of` l2 -> map f l1 `sublist_of` map f l2.
Proof. induction 1; simpl; by constructor. Qed.

Lemma filter_all {A} (f : A -> bool) l :
  (forall x, f x = true) -> List.filter f l = l.
Proof.
  intros Hf. induction l as [|x l IH]; simpl; [done|].
  by rewrite Hf, IH.
Qed.

Lemma get_object_by_name_eq s t tr nm exactmatch :
  trackers s !! t = Some tr ->
  get_object_by_name t nm exactmatch false s
  = (s, Ret (VObjs (map e_obj
       (List.filter (fun tup => if exactmatch
                                then String.eqb nm (e_name tup)
                                else is_substring nm (e_name tup))
                    (dataobject_list tr))))).
Proof.
  intros Ht. unfold get_object_by_name, show_object_list.
  unfold bind at 1. unfold bind at 1.
  rewrite (get_tracker_Some _ _ _ Ht). by destruct exactmatch.
Qed.

(** X3.  [get_object_by_name]: the exact matches are a sub-sequence of the
    substring matches, which are a sub-sequence of the registry's artifacts
    in insertion order; every substring match belongs to a tuple whose name
    contains the pattern; and the empty pattern matches every tuple. *)
Theorem get_object_by_name_exact_within (s : store) (t : tref)
    (tr : DataObjectTracker) (nm : string) :
  trackers s !! t = Some tr ->
  exists exact loose,
    get_object_by_name t nm true false s = (s, Ret (VObjs exact)) /\
    get_object_by_name t nm false false s = (s, Ret (VObjs loose)) /\
    exact `sublist_of` loose /\
    loose `sublist_of` map e_obj (dataobject_list tr) /\
    (forall x, x ∈ loose ->
       exists tup pre post, tup ∈ dataobject_list tr /\ e_obj tup = x /\
                            e_name tup = (pre ++ nm ++ post)%string) /\
    (nm = "" -> loose = map e_obj (dataobject_list tr)).
Proof.
  intros Ht. eexists _, _.
  split; [by apply get_object_by_name_eq|].
  split; [by apply get_object_by_name_eq|].
  split; [|split; [|split]].
  - apply sublist_map, filter_sublist_impl. intros tup Heq.
    apply String.eqb_eq in Heq as <-. apply is_substring_spec.
    exists "", "". simpl. by rewrite string_append_empty.
  - apply sublist_map, filter_sublist_list.
  - intros x Hx. apply list_elem_of_fmap in Hx as (tup & -> & Htup).
    apply list_elem_of_In, filter_In in Htup as [Hin Hsub].
    apply is_substring_spec in Hsub as (pre & post & Hname).
    exists tup, pre, post. split; [by apply list_elem_of_In | done].
  - intros ->. f_equal. apply filter_all. intros tup.
    apply is_substring_spec. by exists "", (e_name tup).
Qed.

Lemma get_object_by_name_exact_within_witness :
  exists exact loose,
    get_object_by_name 0%nat "dc" true false three_entries
      = (three_entries, Ret (VObjs exact)) /\
    get_object_by_name 0%nat "dc" false false three_entries
      = (three_entries, Ret (VObjs loose)) /\
    exact `sublist_of` loose.
Proof.
  destruct (get_object_by_name_exact_within three_entries 0%nat
              (mkTracker 0%nat [mkEntry 0 "dc" DataCube 1%nat;
                                mkEntry 1 "" PointList 2%nat;
                                mkEntry 2 "dc2" DataCube 3%nat]) "dc"
              eq_refl) as (exact & loose & H1 & H2 & H3 & _).
  by exists exact, loose.
Defined.

(** ** Sorting by type *)

Lemma class_in_true x l : class_in x l = true <-> x ∈ l.
Proof.
  unfold class_in. rewrite existsb_exists. split.
  - intros (y & Hy & Heq). apply bool_decide_eq_true in Heq as ->.
    by apply list_elem_of_In.
  - intros H. exists x. split; [by apply list_elem_of_In|].
    by apply bool_decide_eq_true.
Qed.

Lemma collect_types_cons e l types :
  collect_types (e :: l) types
  = collect_types l (if negb (class_in (e_type e) types)
                     then types ++ [e_type e] else types).
Proof. done. Qed.

Lemma collect_types_spec l types :
  NoDup types ->
  exists ext,
    collect_types l types = types ++ ext /\
    ext `sublist_of` map e_type l /\
    NoDup (types ++ ext) /\
    (forall x, x ∈ types ++ ext <-> x ∈ types \/ x ∈ map e_type l).
Proof.
  revert types. induction l as [|e l IH]; intros types Hnd.
  { exists []. rewrite app_nil_r. repeat split; try done.
    - by left.
    - intros [H|H]; [done | by apply elem_of_nil in H]. }
  rewrite collect_types_cons.
  destruct (class_in (e_type e) types) eqn:Hin; simpl negb; cbv iota.
  - apply class_in_true in Hin.
    destruct (IH types Hnd) as (ext & Heq & Hsub & Hnd' & Hmem).
    exists ext. split; [done|]. split; [by constructor|]. split; [done|].
    intros x. rewrite Hmem. cbn [map]. rewrite elem_of_cons.
    split; [tauto|]. intros [H|[->|H]]; auto.
  - assert (Hn : e_type e ∉ types).
    { rewrite <- class_in_true. congruence. }
    assert (Hnd1 : NoDup (types ++ [e_type e])).
    { apply NoDup_app. split; [done|]. split; [|apply NoDup_singleton].
      intros x Hx Hx'. apply list_elem_of_singleton in Hx' as ->. done. }
    destruct (IH _ Hnd1) as (ext & Heq & Hsub & Hnd' & Hmem).
    exists (e_type e :: ext). rewrite Heq, <- app_assoc. simpl.
    split; [done|]. split; [by constructor|].
    split; [by rewrite <- app_assoc in Hnd'|].
    intros x. specialize (Hmem x). rewrite <- app_assoc in Hmem. simpl in Hmem.
    rewrite Hmem, elem_of_app, list_elem_of_singleton. cbn [map].
    rewrite elem_of_cons. tauto.
Qed.

Lemma concat_of_type_nil types :
  concat (map (fun ty => of_type ty []) types) = [].
Proof. induction types as [|ty types IH]; [done | exact IH]. Qed.

Lemma concat_of_type_cons e l types :
  NoDup types -> e_type e ∈ types ->
  concat (map (fun ty => of_type ty (e :: l)) types)
  ≡ₚ e :: concat (map (fun ty => of_type ty l) types).
Proof.
  induction types as [|ty types IH]; intros Hnd Hin;
    [by apply elem_of_nil in Hin|].
  apply NoDup_cons in Hnd as [Hty Hnd]. simpl.
  destruct (bool_decide (e_type e = ty)) eqn:Heq.
  - apply bool_decide_eq_true in Heq. simpl.
    apply Permutation_skip. apply Permutation_app_head.
    rewrite (map_ext_in (fun ty0 => of_type ty0 (e :: l))
                        (fun ty0 => of_type ty0 l)); [done|].
    intros ty' Hty'. unfold of_type. simpl.
    destruct (bool_decide (e_type e = ty')) eqn:Heq'; [|done].
    apply bool_decide_eq_true in Heq'. subst. exfalso. apply Hty.
    by apply list_elem_of_In.
  - apply elem_of_cons in Hin as [Hin|Hin].
    { subst. by rewrite bool_decide_eq_true_2 in Heq. }
    rewrite (IH Hnd Hin). by rewrite Permutation_middle.
Qed.

Lemma concat_of_type_Permutation l types :
  NoDup types -> (forall e, e ∈ l -> e_type e ∈ types) ->
  concat (map (fun ty => of_type ty l) types) ≡ₚ l.
Proof.
  intros Hnd. induction l as [|e l IH]; intros Hcov.
  - by rewrite concat_of_type_nil.
  - rewrite concat_of_type_cons; [|done|apply Hcov; by left].
    apply Permutation_skip. apply IH. intros e' He'. apply Hcov. by right.
Qed.

Lemma sort_by_type_None_eq s t tr :
  trackers s !! t = Some tr ->
  sort_dataobjects_by_type t None false s
  = (s, Ret (VEntries
       (concat (map (fun ty => of_type ty (dataobject_list tr))
                    (collect_types (dataobject_list tr) []))))).
Proof.
  intros Ht. unfold sort_dataobjects_by_type, show_object_list.
  unfold bind at 1. unfold bind at 1.
  rewrite (get_tracker_Some _ _ _ Ht).
  change (fold_left _ (dataobject_list tr) [])
    with (collect_types (dataobject_list tr) []).
  generalize (collect_types (dataobject_list tr) []). intros types.
  rewrite <- (app_nil_l (concat _)). generalize (@nil entry).
  induction types as [|ty types IH]; intros acc.
  - simpl. by rewrite app_nil_r.
  - unfold bind at 1. rewrite (bind_eq _ _ _ _ _ (get_tracker_Some _ _ _ Ht)).
    specialize (IH (acc ++ of_type ty (dataobject_list tr))).
    unfold bind at 1 in IH. simpl. rewrite app_assoc.
    destruct ((fix loop (types0 : list pyclass) (l : list entry) {struct types0}
                 : M (list entry) := _) types _ s) as [s1 [x|e|]] eqn:E;
      exact IH.
Qed.

(** X4.  [sort_dataobjects_by_type]: without a type it returns every tuple
    of the registry exactly once, grouped by type; the types come without
    repetition, in the order of a sub-sequence of the tuples' types, and
    each group keeps the insertion order.  With a type it returns the
    tuples of that type, in insertion order.  A type is a class object:
    tuples of two classes with the same name are told apart. *)
Theorem sort_by_type_rearranges (s : store) (t : tref)
    (tr : DataObjectTracker) :
  trackers s !! t = Some tr ->
  (exists types,
     sort_dataobjects_by_type t None false s
     = (s, Ret (VEntries
          (concat (map (fun ty => of_type ty (dataobject_list tr)) types)))) /\
     NoDup types /\
     types `sublist_of` map e_type (dataobject_list tr) /\
     (forall ty, of_type ty (dataobject_list tr)
                   `sublist_of` dataobject_list tr) /\
     concat (map (fun ty => of_type ty (dataobject_list tr)) types)
       ≡ₚ dataobject_list tr) /\
  (forall ty, exists l,
     sort_dataobjects_by_type t (Some ty) false s = (s, Ret (VEntries l)) /\
     l `sublist_of` dataobject_list tr /\
     (forall e, e ∈ l <-> e ∈ dataobject_list tr /\ e_type e = ty)).
Proof.
  intros Ht. split.
  - destruct (collect_types_spec (dataobject_list tr) [] (NoDup_nil_2))
      as (ext & Heq & Hsub & Hnd & Hmem).
    simpl in *. exists ext.
    split; [by rewrite (sort_by_type_None_eq _ _ _ Ht), Heq|].
    split; [done|]. split; [done|].
    split; [intros ty; apply filter_sublist_list|].
    apply concat_of_type_Permutation; [done|].
    intros e He. apply Hmem. right. apply list_elem_of_fmap. by exists e.
  - intros ty. exists (of_type ty (dataobject_list tr)). split.
    + unfold sort_dataobjects_by_type, show_object_list.
      unfold bind at 1. unfold bind at 1.
      by rewrite (get_tracker_Some _ _ _ Ht).
    + split; [apply filter_sublist_list|].
      intros e. unfold of_type.
      rewrite list_elem_of_In, filter_In, bool_decide_eq_true, list_elem_of_In.
      done.
Qed.

Lemma sort_by_type_rearranges_witness :
  (exists types,
     sort_dataobjects_by_type 0%nat None false two_datacube_classes
     = (two_datacube_classes,
        Ret (VEntries (concat (map (fun ty => of_type ty
                                      (entries_of two_datacube_classes 0%nat))
                                   types)))) /\
     NoDup types) /\
  (exists l,
     sort_dataobjects_by_type 0%nat (Some DataCube) false two_datacube_classes
     = (two_datacube_classes, Ret (VEntries l)) /\
     mkEntry 0 "a" DataCube 1%nat ∈ l /\
     mkEntry 2 "c" OtherDataCube 3%nat ∉ l).
Proof.
  destruct (sort_by_type_rearranges two_datacube_classes 0%nat
              (mkTracker 0%nat [mkEntry 0 "a" DataCube 1%nat;
                                mkEntry 1 "b" PointList 2%nat;
                                mkEntry 2 "c" OtherDataCube 3%nat]) eq_refl)
    as [(types & H1 & H2 & _) H3].
  split; [by exists types|].
  destruct (H3 DataCube) as (l & Hrun & _ & Hmem).
  exists l. split; [done|]. split.
  - apply Hmem. split; [by left | done].
  - intros Hin. apply Hmem in Hin as [_ Hty]. discriminate Hty.
Defined.

(** ** The formatted listing *)

Lemma for_each_print l s :
  for_each l (fun tup => print (Row (e_index tup) (e_name tup)
                                    (class_name (e_type tup)))) s
  = (with_stdout
       (stdout s ++
        map (fun tup => Row (e_index tup) (e_name tup)
                            (class_name (e_type tup))) l) s,
     Ret tt).
Proof.
  revert s. induction l as [|e l IH]; intros s; simpl.
  - rewrite app_nil_r. by destruct s.
  - unfold bind, print. rewrite IH. simpl. unfold with_stdout. simpl.
    by rewrite <- app_assoc.
Qed.

(** X5.  The decorator [show_object_list]: when the decorated method
    returns a list of tuples, the call with [show=True] runs the method
    once, prints the header line and then one row (index, name, type name)
    per tuple in the order of the list, returns None, and changes nothing
    else. *)
Theorem formatted_listing (method : M pyval) (s s1 : store)
    (l : list entry) :
  show_object_list method false s = (s1, Ret (VEntries l)) ->
  show_object_list method true s
  = (with_stdout (stdout s1 ++ listing l) s1, Ret VNone).
Proof.
  unfold show_object_list. intros H.
  apply bind_Ret_inv in H as (s2 & v & Hm & Hret).
  injection Hret as -> ->.
  rewrite (bind_eq _ _ _ _ _ Hm).
  unfold bind at 1. unfold bind at 1. unfold print at 1.
  rewrite for_each_print. simpl. unfold with_stdout, listing. simpl.
  by rewrite <- app_assoc.
Qed.

Lemma formatted_listing_witness :
  get_dataobjects 0%nat true three_entries
  = (with_stdout [Header; Row 0 "dc" "DataCube"; Row 1 "" "PointList";
                  Row 2 "dc2" "DataCube"] three_entries,
     Ret VNone).
Proof.
  apply (formatted_listing _ three_entries three_entries
           [mkEntry 0 "dc" DataCube 1%nat;
            mkEntry 1 "" PointList 2%nat;
            mkEntry 2 "dc2" DataCube 3%nat]).
  reflexivity.
Defined.

(** ** The footprint of a registration *)

Lemma appends_trans a s1 s2 s3 :
  appends a s1 s2 -> appends a s2 s3 -> appends a s1 s3.
Proof.
  induction 1 as [|s t tr oa kw s' Ht Ha Hn _ IH]; [done|].
  intros H3. eapply appends_step; eauto.
Qed.

Lemma appends_objs a s s' : appends a s s' -> objs s' = objs s.
Proof. induction 1 as [|s t tr oa kw s' Ht Ha Hn _ IH]; [done|]. by rewrite IH. Qed.

Lemma appends_keep a s s' t :
  appends a s s' -> a ∈ map e_obj (entries_of s t) ->
  trackers s' !! t = trackers s !! t.
Proof.
  induction 1 as [|s t' tr oa kw s' Ht Ha Hn _ IH]; [done|].
  intros Hin. assert (Hne : t' <> t).
  { intros ->. unfold entries_of in Hin. by rewrite Ht in Hin. }
  rewrite IH.
  - simpl. by rewrite lookup_insert_ne.
  - unfold entries_of in *. simpl. by rewrite lookup_insert_ne.
Qed.

Lemma register_if_absent_appends fuel a sb t s s' r :
  register_if_absent fuel a sb t s = (s', r) -> appends a s s'.
Proof.
  destruct (trackers s !! t) as [tr|] eqn:Ht.
  2: { rewrite (register_if_absent_no_tracker _ _ _ _ _ Ht).
       intros [= <- _]. constructor. }
  rewrite (register_if_absent_eq _ _ _ _ _ _ Ht).
  destruct (py_in a _) eqn:Hin; [intros [= <- _]; constructor|].
  apply py_in_false in Hin. unfold entries_of in Hin. rewrite Ht in Hin.
  destruct fuel as [|fuel]; [intros [= <- _]; constructor|].
  destruct (objs s !! a) as [oa|] eqn:Ha.
  2: { rewrite (new_dataobject_no_object _ _ _ _ _ Ha).
       intros [= <- _]. constructor. }
  rewrite (new_dataobject_eq _ _ _ _ _ _ _ Ht Ha). cbn zeta.
  assert (Hs' : forall x : store * outcome unit,
            fst x = upd_tracker s t
                      (with_entry tr
                         (new_entry tr oa (mkKwargs None (Some sb)) a)) ->
            x = (s', r) -> appends a s s').
  { intros x Hx ->. simpl in Hx. subst s'.
    eapply appends_step; [done..|]. constructor. }
  destruct (py_in _ _); [by apply Hs'|].
  simpl kw_save_behavior. cbv iota.
  destruct fuel as [|fuel]; by apply Hs'.
Qed.

Lemma for_each_register_appends fuel a sb l s s' r :
  for_each l (register_if_absent fuel a sb) s = (s', r) -> appends a s s'.
Proof.
  revert s. induction l as [|t l IH]; intros s; simpl.
  { intros [= <- _]. constructor. }
  unfold bind at 1.
  destruct (register_if_absent fuel a sb t s) as [s1 r1] eqn:Hstep.
  apply register_if_absent_appends in Hstep.
  destruct r1 as [[]|e|].
  - intros H. eapply appends_trans; [done|]. by apply IH.
  - by intros [= <- _].
  - by intros [= <- _].
Qed.

(** [new_parent] does nothing, or links the artifact to the new parent and
    then appends tuples for it. *)
Lemma new_parent_footprint fuel a p extra kw s s' r :
  new_parent fuel a p extra kw s = (s', r) ->
  s' = s \/
  exists o oa,
    p = Some o /\ extra = [] /\ objs s !! a = Some oa /\
    (o ∉ origins_of s a) /\
    appends a (upd_obj s a (with_parent oa
                 (o, default (save_behavior oa) (kw_save_behavior kw)))) s'.
Proof.
  destruct fuel as [|fuel]; [intros [= <- _]; by left|].
  destruct extra as [|b extra];
    [|rewrite new_parent_extra; intros [= <- _]; by left].
  destruct p as [o|].
  2: { intros H. left.
       pose proof (new_parent_None_state (S fuel) a [] kw s) as Hs.
       by rewrite H in Hs. }
  destruct (objs s !! a) as [oa|] eqn:Ha.
  2: { rewrite (new_parent_missing_self _ _ _ _ _ Ha).
       intros [= <- _]. by left. }
  rewrite (new_parent_eq _ _ _ _ _ _ Ha). cbn zeta.
  destruct (py_in _ _) eqn:Hin; [intros [= <- _]; by left|].
  apply py_in_false in Hin. intros H. right. exists o, oa.
  do 4 (split; [done|]).
  destruct (objs _ !! o).
  - by eapply for_each_register_appends.
  - injection H as <- _. constructor.
Qed.

(** [new_dataobject] does nothing, or appends its tuple and then, when it
    calls [new_parent], has the footprint of that call. *)
Lemma new_dataobject_footprint fuel t a kw s s' r :
  new_dataobject fuel t a kw s = (s', r) ->
  s' = s \/
  exists tr oa,
    trackers s !! t = Some tr /\ objs s !! a = Some oa /\
    (s' = upd_tracker s t (with_entry tr (new_entry tr oa kw a)) \/
     (rawdatacube tr ∉ origins_of s a) /\
     appends a
       (upd_obj (upd_tracker s t (with_entry tr (new_entry tr oa kw a))) a
          (with_parent oa (rawdatacube tr, save_behavior oa))) s').
Proof.
  destruct fuel as [|fuel]; [intros [= <- _]; by left|].
  destruct (objs s !! a) as [oa|] eqn:Ha.
  2: { rewrite (new_dataobject_no_object _ _ _ _ _ Ha).
       intros [= <- _]. by left. }
  destruct (trackers s !! t) as [tr|] eqn:Ht.
  2: { rewrite (new_dataobject_no_tracker _ _ _ _ _ _ Ha Ht).
       intros [= <- _]. by left. }
  rewrite (new_dataobject_eq _ _ _ _ _ _ _ Ht Ha). cbn zeta.
  intros H. right. exists tr, oa. do 2 (split; [done|]).
  destruct (py_in _ _) eqn:Hin; [injection H as <- _; by left|].
  destruct (kw_save_behavior kw) as [b|].
  - left. destruct fuel as [|fuel]; [by injection H as <- _|].
    rewrite new_parent_extra in H. by injection H as <- _.
  - apply new_parent_footprint in H
      as [->|(o & oa' & Hp & _ & Ha' & Hn & Happ)]; [by left|].
    right. injection Hp as <-. simpl in Ha'. rewrite Ha in Ha'.
    injection Ha' as <-. split; [|done]. by apply py_in_false.
Qed.

Lemma DataObject_init_eq fuel klass parent sb nm s :
  DataObject_init fuel klass parent sb nm s
  = let a := fresh (dom (objs s)) in
    match new_parent fuel a parent [] (mkKwargs None (Some (default true sb)))
            (upd_obj s a (mkDataObject klass (default true sb)
                            (default "" nm) [] None None)) with
    | (s1, Ret _) =>
        match objs s1 !! a with
        | Some o1 =>
            (upd_obj (upd_obj s1 a (with_log o1 [])) a
               (with_log o1 [log_index s1 - 1]), Ret a)
        | None => (s1, Raise AttributeError)
        end
    | (s1, Raise e) => (s1, Raise e)
    | (s1, OutOfFuel) => (s1, OutOfFuel)
    end.
Proof.
  unfold DataObject_init. unfold bind at 1. unfold alloc_obj at 1. cbn zeta.
  set (a := fresh (dom (objs s))).
  set (o_new := mkDataObject klass _ _ _ _ _).
  assert (Ha0 : objs (upd_obj s a o_new) !! a = Some o_new)
    by (simpl; apply lookup_insert_eq).
  rewrite (bind_eq _ _ _ _ _ (get_obj_Some _ _ _ Ha0)).
  unfold bind at 1. simpl save_behavior.
  destruct (new_parent fuel a parent [] _ _) as [s1 [[]|e|]]; [|done|done].
  destruct (objs s1 !! a) as [o1|] eqn:Ha1.
  - rewrite (bind_eq _ _ _ _ _ (get_obj_Some _ _ _ Ha1)).
    unfold bind at 1. unfold set_obj at 1.
    unfold log_modification, get_current_log_index.
    unfold bind at 1. unfold bind at 1. unfold bind at 1.
    assert (Ha2 : objs (upd_obj s1 a (with_log o1 [])) !! a
                  = Some (with_log o1 []))
      by (simpl; apply lookup_insert_eq).
    fold (with_log o1 []). by rewrite (get_obj_Some _ _ _ Ha2).
  - apply bind_raise. by apply get_obj_None.
Qed.

Section Preservation.

(** A property of the state that survives the two steps a registration of
    the artifact [a] is made of survives the registration, however it
    ends. *)
Variable a : ref.
Variable P : store -> Prop.

Hypothesis P_link : forall s oa o sb,
  objs s !! a = Some oa -> o ∉ origins_of s a ->
  P s -> P (upd_obj s a (with_parent oa (o, sb))).

Hypothesis P_append : forall s t tr oa kw,
  trackers s !! t = Some tr -> objs s !! a = Some oa ->
  a ∉ map e_obj (dataobject_list tr) ->
  P s -> P (upd_tracker s t (with_entry tr (new_entry tr oa kw a))).

Lemma appends_preserves s s' : appends a s s' -> P s -> P s'.
Proof.
  induction 1 as [|s t tr oa kw s' Ht Ha Hn _ IH]; [done|].
  intros HP. apply IH. by apply P_append.
Qed.

Lemma new_parent_preserves fuel p extra kw s s' r :
  new_parent fuel a p extra kw s = (s', r) -> P s -> P s'.
Proof.
  intros H HP.
  apply new_parent_footprint in H
    as [->|(o & oa & _ & _ & Ha & Hn & Happ)]; [done|].
  eapply appends_preserves; [done|]. by apply P_link.
Qed.

Lemma new_dataobject_preserves fuel t kw s s' r :
  (forall s t tr oa kw,
     trackers s !! t = Some tr -> objs s !! a = Some oa ->
     P s -> P (upd_tracker s t (with_entry tr (new_entry tr oa kw a)))) ->
  new_dataobject fuel t a kw s = (s', r) -> P s -> P s'.
Proof.
  intros P_any H HP.
  apply new_dataobject_footprint in H
    as [->|(tr & oa & Ht & Ha & [->|[Hn Happ]])]; [done|by apply P_any|].
  eapply appends_preserves; [done|]. apply P_link; [done|done|].
  by apply P_any.
Qed.

Lemma DataObject_init_preserves fuel klass parent sb nm s s' r :
  (forall s o',
     (forall oa, objs s !! a = Some oa -> same_but_log oa o') ->
     (objs s !! a = None -> parents_and_save_behavior o' = []) ->
     P s -> P (upd_obj s a o')) ->
  fresh (dom (objs s)) = a ->
  DataObject_init fuel klass parent sb nm s = (s', r) -> P s -> P s'.
Proof.
  intros P_obj Hfresh H HP. rewrite DataObject_init_eq in H.
  cbn zeta in H. rewrite Hfresh in H.
  assert (Hnone : objs s !! a = None).
  { rewrite <- Hfresh. apply alloc_obj_fresh. }
  destruct (new_parent fuel a parent [] _ _) as [s1 r1] eqn:Hnp.
  assert (HP1 : P s1).
  { eapply new_parent_preserves; [done|]. apply P_obj; [|done|done].
    intros oa Hoa. congruence. }
  destruct r1 as [[]|e|]; [|by injection H as <- _|by injection H as <- _].
  destruct (objs s1 !! a) as [o1|] eqn:Ha1; [|by injection H as <- _].
  injection H as <- _.
  apply P_obj.
  - intros oa. simpl. rewrite lookup_insert_eq. intros [= <-]. by repeat split.
  - simpl. by rewrite lookup_insert_eq.
  - apply P_obj; [|congruence|done].
    intros oa. rewrite Ha1. intros [= <-]. by repeat split.
Qed.

End Preservation.

(** ** Indices of the tuples *)

Lemma indices_upd_obj s a o :
  indices_are_positions s -> indices_are_positions (upd_obj s a o).
Proof. done. Qed.

Lemma indices_append s t tr oa kw a :
  trackers s !! t = Some tr ->
  indices_are_positions s ->
  indices_are_positions
    (upd_tracker s t (with_entry tr (new_entry tr oa kw a))).
Proof.
  intros Ht H. unfold indices_are_positions. simpl.
  apply map_Forall_insert_2; [|done].
  specialize (H t tr Ht). simpl in *.
  by rewrite map_app, length_app, seq_app, H.
Qed.

Lemma indices_lookup s t tr i e :
  indices_are_positions s -> trackers s !! t = Some tr ->
  dataobject_list tr !! i = Some e -> e_index e = i.
Proof.
  intros H Ht He. specialize (H t tr Ht). simpl in H.
  assert (Hi : map e_index (dataobject_list tr) !! i = Some (e_index e)).
  { change (map e_index (dataobject_list tr))
      with (e_index <$> dataobject_list tr).
    by rewrite list_lookup_fmap, He. }
  rewrite H in Hi. apply lookup_seq in Hi as [Hi _]. done.
Qed.

(** X6.  If in every registry the first component of each tuple is the
    tuple's position, this is still so after constructing an artifact,
    after [new_parent] and after [new_dataobject], whether the call returns
    or raises. *)
Theorem indices_are_positions_preserved (fuel : nat) (s s' : store) :
  indices_are_positions s ->
  (forall klass parent sb nm r,
     DataObject_init fuel klass parent sb nm s = (s', r) ->
     indices_are_positions s') /\
  (forall a p extra kw r,
     new_parent fuel a p extra kw s = (s', r) -> indices_are_positions s') /\
  (forall t a kw r,
     new_dataobject fuel t a kw s = (s', r) -> indices_are_positions s').
Proof.
  intros H. split; [|split].
  - intros klass parent sb nm r Hrun.
    eapply (DataObject_init_preserves (fresh (dom (objs s)))
              indices_are_positions); try done.
    intros. by apply indices_append.
  - intros a p extra kw r Hrun.
    eapply (new_parent_preserves a indices_are_positions); try done.
    intros. by apply indices_append.
  - intros t a kw r Hrun.
    eapply (new_dataobject_preserves a indices_are_positions); try done.
    + intros. by apply indices_append.
    + intros. by apply indices_append.
Qed.

Lemma indices_are_positions_two_origins : indices_are_positions two_origins.
Proof. apply (bool_decide_unpack _). vm_compute. exact I. Defined.

Lemma indices_are_positions_preserved_witness :
  let s1 := fst (DataObject_init 3 DataCube (Some 0%nat) (Some true)
                   (Some "dc") two_origins) in
  indices_are_positions s1 /\
  indices_are_positions
    (fst (new_dataobject 4 1%nat 2%nat (mkKwargs None (Some false)) s1)) /\
  indices_are_positions
    (fst (new_parent 3 2%nat (Some 0%nat) [] no_kwargs s1)).
Proof.
  intros s1.
  assert (H1 : indices_are_positions s1).
  { destruct (indices_are_positions_preserved 3 two_origins s1
                indices_are_positions_two_origins) as (H & _).
    apply (H DataCube (Some 0%nat) (Some true) (Some "dc") (Ret 2%nat)).
    reflexivity. }
  split; [exact H1|]. split.
  - destruct (indices_are_positions_preserved 4 s1
                (fst (new_dataobject 4 1%nat 2%nat
                        (mkKwargs None (Some false)) s1)) H1)
      as (_ & _ & H).
    apply (H 1%nat 2%nat (mkKwargs None (Some false)) (Raise TypeError)).
    reflexivity.
  - destruct (indices_are_positions_preserved 3 s1
                (fst (new_parent 3 2%nat (Some 0%nat) [] no_kwargs s1)) H1)
      as (_ & H & _).
    apply (H 2%nat (Some 0%nat) [] no_kwargs (Raise TypeError)).
    reflexivity.
Defined.

(** X7.  In a state where the first component of each tuple is its
    position, [get_object_by_index] called with the index recorded in a
    tuple of the registry returns the artifact of that tuple. *)
Theorem lookup_by_recorded_index (s : store) (t : tref)
    (tr : DataObjectTracker) (e : entry) :
  indices_are_positions s ->
  trackers s !! t = Some tr ->
  e ∈ dataobject_list tr ->
  get_object_by_index t (Z.of_nat (e_index e)) false s
  = (s, Ret (VObj (e_obj e))).
Proof.
  intros H Ht He. apply list_elem_of_lookup in He as [i Hi].
  rewrite (indices_lookup _ _ _ _ _ H Ht Hi).
  rewrite (get_object_by_index_unfold _ _ _ _ Ht).
  rewrite (py_getitem_nonneg _ _ e); [done|lia|].
  by rewrite Nat2Z.id.
Qed.

Lemma indices_are_positions_three_entries :
  indices_are_positions three_entries.
Proof. apply (bool_decide_unpack _). vm_compute. exact I. Defined.

Lemma lookup_by_recorded_index_witness :
  get_object_by_index 0%nat 2 false three_entries
  = (three_entries, Ret (VObj 3%nat)).
Proof.
  apply (lookup_by_recorded_index three_entries 0%nat
           (mkTracker 0%nat [mkEntry 0 "dc" DataCube 1%nat;
                             mkEntry 1 "" PointList 2%nat;
                             mkEntry 2 "dc2" DataCube 3%nat])
           (mkEntry 2 "dc2" DataCube 3%nat)
           indices_are_positions_three_entries eq_refl).
  right. right. left.
Defined.

(** ** Uniqueness of parents and of registered artifacts *)

Lemma origins_unique_link s a oa o sb :
  objs s !! a = Some oa -> o ∉ origins_of s a ->
  origins_unique s -> origins_unique (upd_obj s a (with_parent oa (o, sb))).
Proof.
  intros Ha Hn H. unfold origins_unique. simpl.
  apply map_Forall_insert_2; [|done]. simpl.
  specialize (H a oa Ha). simpl in H.
  unfold origins_of, parents_of in Hn. rewrite Ha in Hn.
  rewrite map_app. apply NoDup_app. split; [done|]. split.
  - simpl. intros x Hx Hx'. apply list_elem_of_singleton in Hx' as ->. done.
  - apply NoDup_singleton.
Qed.

Lemma origins_unique_upd_obj s a o' :
  (forall oa, objs s !! a = Some oa -> same_but_log oa o') ->
  (objs s !! a = None -> parents_and_save_behavior o' = []) ->
  origins_unique s -> origins_unique (upd_obj s a o').
Proof.
  intros Hsame Hnew H. unfold origins_unique. simpl.
  apply map_Forall_insert_2; [|done].
  destruct (objs s !! a) as [oa|] eqn:Ha.
  - destruct (Hsame oa eq_refl) as (_ & _ & _ & -> & _). by apply (H a oa).
  - rewrite Hnew by done. constructor.
Qed.

(** X8.  If no artifact lists a parent twice, this is still so after
    constructing an artifact, after [new_parent] and after
    [new_dataobject], whether the call returns or raises. *)
Theorem origins_unique_preserved (fuel : nat) (s s' : store) :
  origins_unique s ->
  (forall klass parent sb nm r,
     DataObject_init fuel klass parent sb nm s = (s', r) ->
     origins_unique s') /\
  (forall a p extra kw r,
     new_parent fuel a p extra kw s = (s', r) -> origins_unique s') /\
  (forall t a kw r,
     new_dataobject fuel t a kw s = (s', r) -> origins_unique s').
Proof.
  intros H. split; [|split].
  - intros klass parent sb nm r Hrun.
    eapply (DataObject_init_preserves (fresh (dom (objs s)))
              origins_unique); try done.
    + intros. by apply origins_unique_link.
    + intros. by apply origins_unique_upd_obj.
  - intros a p extra kw r Hrun.
    eapply (new_parent_preserves a origins_unique); try done.
    intros. by apply origins_unique_link.
  - intros t a kw r Hrun.
    eapply (new_dataobject_preserves a origins_unique); try done.
    intros. by apply origins_unique_link.
Qed.

Lemma origins_unique_two_origins : origins_unique two_origins.
Proof. apply (bool_decide_unpack _). vm_compute. exact I. Defined.

Lemma origins_unique_preserved_witness :
  let s1 := fst (DataObject_init 3 DataCube (Some 0%nat) (Some true)
                   (Some "dc") two_origins) in
  origins_unique s1 /\
  origins_unique (fst (new_dataobject 4 1%nat 2%nat no_kwargs s1)) /\
  origins_unique (fst (new_parent 3 2%nat (Some 0%nat) [] no_kwargs s1)).
Proof.
  intros s1.
  assert (H1 : origins_unique s1).
  { destruct (origins_unique_preserved 3 two_origins s1
                origins_unique_two_origins) as (H & _).
    apply (H DataCube (Some 0%nat) (Some true) (Some "dc") (Ret 2%nat)).
    reflexivity. }
  split; [exact H1|]. split.
  - destruct (origins_unique_preserved 4 s1
                (fst (new_dataobject 4 1%nat 2%nat no_kwargs s1)) H1)
      as (_ & _ & H).
    apply (H 1%nat 2%nat no_kwargs (Ret tt)). reflexivity.
  - destruct (origins_unique_preserved 3 s1
                (fst (new_parent 3 2%nat (Some 0%nat) [] no_kwargs s1)) H1)
      as (_ & H & _).
    apply (H 2%nat (Some 0%nat) [] no_kwargs (Raise TypeError)).
    reflexivity.
Defined.

Lemma entries_unique_append s t tr oa kw a :
  trackers s !! t = Some tr -> a ∉ map e_obj (dataobject_list tr) ->
  entries_unique s ->
  entries_unique (upd_tracker s t (with_entry tr (new_entry tr oa kw a))).
Proof.
  intros Ht Hn H. unfold entries_unique. simpl.
  apply map_Forall_insert_2; [|done]. simpl.
  specialize (H t tr Ht). simpl in H.
  rewrite map_app. apply NoDup_app. split; [done|]. split.
  - simpl. intros x Hx Hx'. apply list_elem_of_singleton in Hx' as ->. done.
  - apply NoDup_singleton.
Qed.

(** X9.  If no registry lists an artifact twice, this is still so after
    constructing an artifact and after [new_parent], whether the call
    returns or raises: these two register an artifact only where
    [contains_dataobject] is false. *)
Theorem entries_unique_preserved (fuel : nat) (s s' : store) :
  entries_unique s ->
  (forall klass parent sb nm r,
     DataObject_init fuel klass parent sb nm s = (s', r) ->
     entries_unique s') /\
  (forall a p extra kw r,
     new_parent fuel a p extra kw s = (s', r) -> entries_unique s').
Proof.
  intros H. split.
  - intros klass parent sb nm r Hrun.
    eapply (DataObject_init_preserves (fresh (dom (objs s)))
              entries_unique); try done.
    intros. by apply entries_unique_append.
  - intros a p extra kw r Hrun.
    eapply (new_parent_preserves a entries_unique); try done.
    intros. by apply entries_unique_append.
Qed.

Lemma entries_unique_two_origins : entries_unique two_origins.
Proof. apply (bool_decide_unpack _). vm_compute. exact I. Defined.

Lemma entries_unique_preserved_witness :
  let s1 := fst (DataObject_init 3 DataCube (Some 0%nat) (Some true)
                   (Some "dc") two_origins) in
  entries_unique s1 /\
  entries_unique (fst (new_parent 3 2%nat (Some 1%nat) [] no_kwargs s1)).
Proof.
  intros s1.
  assert (H1 : entries_unique s1).
  { destruct (entries_unique_preserved 3 two_origins s1
                entries_unique_two_origins) as (H & _).
    apply (H DataCube (Some 0%nat) (Some true) (Some "dc") (Ret 2%nat)).
    reflexivity. }
  split; [exact H1|].
  destruct (entries_unique_preserved 3 s1
              (fst (new_parent 3 2%nat (Some 1%nat) [] no_kwargs s1)) H1)
    as (_ & H).
  apply (H 2%nat (Some 1%nat) [] no_kwargs (Ret tt)). reflexivity.
Defined.

(** ** Nothing is removed *)

Lemma extends_refl s : extends s s.
Proof.
  split; [done|]. split; [done|]. split.
  - intros t tr Ht. by exists tr.
  - intros x o Hx. exists o. by repeat split.
Qed.

Lemma extends_link s0 s a oa o sb :
  objs s !! a = Some oa ->
  extends s0 s -> extends s0 (upd_obj s a (with_parent oa (o, sb))).
Proof.
  intros Ha (Hlog & Hnone & Htr & Hobj).
  split; [done|]. split; [done|]. split; [done|].
  intros x ox Hx. destruct (Hobj x ox Hx) as (o' & Ho' & Hpre & Hrest).
  simpl. destruct (decide (x = a)) as [->|Hne].
  - rewrite lookup_insert_eq. eexists. split; [done|].
    rewrite Ha in Ho'. injection Ho' as <-.
    split; [by apply prefix_app_r | done].
  - rewrite lookup_insert_ne by done. by exists o'.
Qed.

Lemma extends_append s0 s t tr e :
  trackers s !! t = Some tr ->
  extends s0 s -> extends s0 (upd_tracker s t (with_entry tr e)).
Proof.
  intros Ht (Hlog & Hnone & Htr & Hobj).
  split; [done|]. split; [|split; [|done]].
  - intros t0 Ht0. simpl. rewrite lookup_insert_ne; [by apply Hnone|].
    intros ->. rewrite (Hnone _ Ht0) in Ht. done.
  - intros t0 tr0 Ht0. destruct (Htr t0 tr0 Ht0) as (tr' & Ht' & Hown & Hpre).
    simpl. destruct (decide (t0 = t)) as [->|Hne].
    + rewrite lookup_insert_eq. eexists. split; [done|].
      rewrite Ht in Ht'. injection Ht' as <-.
      split; [done | by apply prefix_app_r].
    + rewrite lookup_insert_ne by done. by exists tr'.
Qed.

Lemma extends_new_obj s0 s a o' :
  objs s0 !! a = None -> extends s0 s -> extends s0 (upd_obj s a o').
Proof.
  intros Ha (Hlog & Hnone & Htr & Hobj).
  split; [done|]. split; [done|]. split; [done|].
  intros x ox Hx. simpl. rewrite lookup_insert_ne; [by apply Hobj|].
  intros ->. congruence.
Qed.

(** X10.  Constructing an artifact, [new_parent] and [new_dataobject] only
    add, whether they return or raise: every registry is still there with
    the same owner and its old tuples as a prefix of its list, no registry
    appears, every artifact is still there with its old parent list as a
    prefix of the new one and its class, name, default save behaviour,
    modification log and tracker attribute as they were, and the logger
    index is the same. *)
Theorem registration_only_adds (fuel : nat) (s s' : store) :
  (forall klass parent sb nm r,
     DataObject_init fuel klass parent sb nm s = (s', r) -> extends s s') /\
  (forall a p extra kw r,
     new_parent fuel a p extra kw s = (s', r) -> extends s s') /\
  (forall t a kw r,
     new_dataobject fuel t a kw s = (s', r) -> extends s s').
Proof.
  split; [|split].
  - intros klass parent sb nm r Hrun.
    eapply (DataObject_init_preserves (fresh (dom (objs s))) (extends s));
      try done.
    + intros. by apply extends_link.
    + intros. by apply extends_append.
    + intros. apply extends_new_obj; [apply alloc_obj_fresh | done].
    + apply extends_refl.
  - intros a p extra kw r Hrun.
    eapply (new_parent_preserves a (extends s)); try done.
    + intros. by apply extends_link.
    + intros. by apply extends_append.
    + apply extends_refl.
  - intros t a kw r Hrun.
    eapply (new_dataobject_preserves a (extends s)); try done.
    + intros. by apply extends_link.
    + intros. by apply extends_append.
    + intros. by apply extends_append.
    + apply extends_refl.
Qed.

Lemma registration_only_adds_witness :
  let s1 := fst (DataObject_init 3 DataCube (Some 0%nat) (Some true)
                   (Some "dc") two_origins) in
  extends two_origins s1 /\
  extends s1 (fst (new_dataobject 4 1%nat 2%nat
                     (mkKwargs None (Some false)) s1)).
Proof.
  intros s1. split.
  - destruct (registration_only_adds 3 two_origins s1) as (H & _).
    apply (H DataCube (Some 0%nat) (Some true) (Some "dc") (Ret 2%nat)).
    reflexivity.
  - destruct (registration_only_adds 4 s1
                (fst (new_dataobject 4 1%nat 2%nat
                        (mkKwargs None (Some false)) s1)))
      as (_ & _ & H).
    apply (H 1%nat 2%nat (mkKwargs None (Some false)) (Raise TypeError)).
    reflexivity.
Defined.

(** X11.  No call changes an artifact other than the one it registers:
    [new_parent] and [new_dataobject] leave every other artifact as it was,
    and a construction leaves every artifact that existed as it was and
    returns a reference that was not in use.  This holds whether the call
    returns or raises. *)
Theorem only_the_registered_artifact_changes (fuel : nat) (s s' : store) :
  (forall a p extra kw r,
     new_parent fuel a p extra kw s = (s', r) ->
     forall x, x <> a -> objs s' !! x = objs s !! x) /\
  (forall t a kw r,
     new_dataobject fuel t a kw s = (s', r) ->
     forall x, x <> a -> objs s' !! x = objs s !! x) /\
  (forall klass parent sb nm r,
     DataObject_init fuel klass parent sb nm s = (s', r) ->
     (forall x o, objs s !! x = Some o -> objs s' !! x = Some o) /\
     (forall a, r = Ret a -> objs s !! a = None /\ is_Some (objs s' !! a))).
Proof.
  assert (Hlink : forall a s0 oa o sb,
    (forall x, x <> a -> objs s0 !! x = objs s !! x) ->
    forall x, x <> a ->
      objs (upd_obj s0 a (with_parent oa (o, sb))) !! x = objs s !! x).
  { intros a s0 oa o sb H x Hx. simpl. rewrite lookup_insert_ne by done.
    by apply H. }
  split; [|split].
  - intros a p extra kw r Hrun.
    eapply (new_parent_preserves a
              (fun s0 => forall x, x <> a -> objs s0 !! x = objs s !! x));
      try done.
    intros. by apply Hlink.
  - intros t a kw r Hrun.
    eapply (new_dataobject_preserves a
              (fun s0 => forall x, x <> a -> objs s0 !! x = objs s !! x));
      try done.
    intros. by apply Hlink.
  - intros klass parent sb nm r Hrun.
    set (a := fresh (dom (objs s))).
    assert (Hfresh : objs s !! a = None) by apply alloc_obj_fresh.
    split.
    + intros x o Hx. rewrite <- Hx.
      eapply (DataObject_init_preserves a
                (fun s0 => forall x, x <> a -> objs s0 !! x = objs s !! x));
        try done.
      * intros. by apply Hlink.
      * intros s0 o' _ _ H y Hy. simpl. rewrite lookup_insert_ne by done.
        by apply H.
      * intros ->. congruence.
    + intros a' ->. rewrite DataObject_init_eq in Hrun. cbn zeta in Hrun.
      fold a in Hrun.
      destruct (new_parent fuel a parent [] _ _) as [s1 [[]|e|]];
        [|done|done].
      destruct (objs s1 !! a); [|done].
      injection Hrun as <- <-. split; [done|].
      simpl. rewrite lookup_insert_eq. by eexists.
Qed.

Lemma only_the_registered_artifact_changes_witness :
  let x := DataObject_init 3 DataCube (Some 0%nat) (Some true) (Some "dc")
             two_origins in
  objs (fst x) !! 0%nat = objs two_origins !! 0%nat /\
  objs two_origins !! 2%nat = None /\
  objs (fst (new_parent 3 1%nat (Some 0%nat) [] no_kwargs two_origins))
    !! 0%nat = objs two_origins !! 0%nat.
Proof.
  intros x.
  destruct (only_the_registered_artifact_changes 3 two_origins (fst x))
    as (_ & _ & H).
  destruct (H DataCube (Some 0%nat) (Some true) (Some "dc") (Ret 2%nat)
              eq_refl) as [H1 H2].
  destruct (only_the_registered_artifact_changes 3 two_origins
              (fst (new_parent 3 1%nat (Some 0%nat) [] no_kwargs
                      two_origins))) as (H3 & _).
  split; [|split].
  - apply (H1 0%nat (origin_obj [] (Some 0%nat))). reflexivity.
  - by destruct (H2 2%nat eq_refl).
  - apply (H3 1%nat (Some 0%nat) [] no_kwargs (Ret tt) eq_refl). lia.
Defined.

(** ** Registering from the tracker *)

Lemma new_dataobject_entries fuel t a kw s s' r tr oa :
  trackers s !! t = Some tr -> objs s !! a = Some oa ->
  new_dataobject (S fuel) t a kw s = (s', r) ->
  trackers s' !! t = Some (with_entry tr (new_entry tr oa kw a)).
Proof.
  intros Ht Ha. rewrite (new_dataobject_eq _ _ _ _ _ _ _ Ht Ha). cbn zeta.
  set (s1 := upd_tracker s t (with_entry tr (new_entry tr oa kw a))).
  assert (Ht1 : trackers s1 !! t
                = Some (with_entry tr (new_entry tr oa kw a)))
    by (simpl; apply lookup_insert_eq).
  assert (Hnp : forall x,
    new_parent fuel a (Some (rawdatacube tr)) x no_kwargs s1 = (s', r) ->
    trackers s' !! t = Some (with_entry tr (new_entry tr oa kw a))).
  { intros x H.
    apply new_parent_footprint in H
      as [->|(o & oa' & _ & _ & Ha' & _ & Happ)]; [done|].
    rewrite (appends_keep _ _ _ t Happ); [done|].
    unfold entries_of. simpl. rewrite lookup_insert_eq. simpl.
    rewrite map_app. apply elem_of_app. right. by left. }
  destruct (py_in _ _); [by intros [= <- _]|].
  destruct (kw_save_behavior kw); apply Hnp.
Qed.

(** X12.  [new_dataobject] on an existing registry and artifact always
    appends one tuple (position, name given or the artifact's, class,
    artifact) to that registry, also when the artifact is already listed
    and also when the call then raises.  Afterwards the artifact is found
    by [contains_dataobject], at the index that was the length of the list,
    and at index -1. *)
Theorem register_then_lookup (fuel : nat) (t : tref) (a : ref)
    (kw : kwargs) (s s' : store) (r : outcome unit)
    (tr : DataObjectTracker) (oa : DataObject) :
  trackers s !! t = Some tr -> objs s !! a = Some oa ->
  new_dataobject (S fuel) t a kw s = (s', r) ->
  entries_of s' t
  = dataobject_list tr ++
    [mkEntry (length (dataobject_list tr)) (default (name oa) (kw_name kw))
             (cls oa) a] /\
  contains_dataobject t a s' = (s', Ret true) /\
  get_object_by_index t (Z.of_nat (length (dataobject_list tr))) false s'
    = (s', Ret (VObj a)) /\
  get_object_by_index t (-1) false s' = (s', Ret (VObj a)).
Proof.
  intros Ht Ha Hrun.
  pose proof (new_dataobject_entries _ _ _ _ _ _ _ _ _ Ht Ha Hrun) as Ht'.
  assert (He : entries_of s' t
               = dataobject_list tr ++ [new_entry tr oa kw a]).
  { unfold entries_of. by rewrite Ht'. }
  split; [done|]. split; [|split].
  - rewrite (contains_dataobject_eq _ _ _ _ Ht'), He.
    assert (Hin : a ∈ map e_obj (dataobject_list tr
                                   ++ [new_entry tr oa kw a])).
    { rewrite map_app. apply elem_of_app. right. by left. }
    apply py_in_true in Hin. by rewrite Hin.
  - rewrite (get_object_by_index_unfold _ _ _ _ Ht').
    rewrite (py_getitem_nonneg _ _ (new_entry tr oa kw a)); [done|lia|].
    rewrite Nat2Z.id. simpl.
    by rewrite lookup_app_r, Nat.sub_diag.
  - rewrite (get_object_by_index_unfold _ _ _ _ Ht').
    rewrite (py_getitem_negative _ _ (new_entry tr oa kw a)); [done|lia|..].
    + simpl. rewrite length_app. simpl. lia.
    + simpl. rewrite length_app. simpl.
      replace (Z.to_nat (-1 + Z.of_nat (length (dataobject_list tr) + 1)))
        with (length (dataobject_list tr)) by lia.
      by rewrite lookup_app_r, Nat.sub_diag.
Qed.

Lemma register_then_lookup_witness :
  let x := new_dataobject 4 0%nat 2%nat (mkKwargs (Some "again") None)
             three_entries in
  map e_obj (entries_of (fst x) 0%nat) = [1%nat; 2%nat; 3%nat; 2%nat] /\
  get_object_by_index 0%nat 3 false (fst x) = (fst x, Ret (VObj 2%nat)).
Proof.
  intros x.
  destruct (register_then_lookup 3 0%nat 2%nat (mkKwargs (Some "again") None)
              three_entries (fst x) (Ret tt)
              (mkTracker 0%nat [mkEntry 0 "dc" DataCube 1%nat;
                                mkEntry 1 "" PointList 2%nat;
                                mkEntry 2 "dc2" DataCube 3%nat])
              (mkDataObject PointList false "" [(0%nat, false)]
                 (Some [2]) None) eq_refl eq_refl eq_refl)
    as (H1 & _ & H3 & _).
  split; [by rewrite H1 | exact H3].
Defined.

Lemma one_hop_same_objs s s' o :
  objs s' = objs s -> one_hop s' o = one_hop s o.
Proof.
  intros H. unfold one_hop, origins_of, parents_of, tracker_attr.
  by rewrite H.
Qed.

(** X13.  Registration from either side ends in the same state.  Let the
    artifact [a] be neither linked to the origin [w] nor in the registry
    [t] of [w], and let [t] be the only tracker reached from [w].  Then
    [a.new_parent(w)] and [t.new_dataobject(a)] both return, and both leave
    the state in which [a] has gained the link to [w] with its own default
    save behaviour and [t] has gained one tuple for [a]. *)
Theorem registration_paths_agree (fuel : nat) (s : store) (a w : ref)
    (t : tref) (oa : DataObject) (tr : DataObjectTracker) :
  objs s !! a = Some oa ->
  a <> w ->
  one_hop s w = [t] ->
  is_Some (objs s !! w) ->
  trackers s !! t = Some tr ->
  rawdatacube tr = w ->
  a ∉ map e_obj (dataobject_list tr) ->
  w ∉ origins_of s a ->
  let s' := upd_tracker (upd_obj s a (with_parent oa (w, save_behavior oa)))
              t (with_entry tr (new_entry tr oa no_kwargs a)) in
  new_parent (S (S fuel)) a (Some w) [] no_kwargs s = (s', Ret tt) /\
  new_dataobject (S (S fuel)) t a no_kwargs s = (s', Ret tt).
Proof.
  intros Ha Hne Hhop [ow Hw] Ht Hown Hna Hnw s'.
  apply py_in_false in Hnw as Hnw'. apply py_in_false in Hna as Hna'.
  assert (Hlinked : py_in w (map fst (parents_and_save_behavior oa)
                               ++ [w]) = true).
  { apply py_in_true, elem_of_app. right. by left. }
  split.
  - rewrite (new_parent_eq _ _ _ _ _ _ Ha). cbn zeta. rewrite Hnw'.
    simpl default.
    set (s1 := upd_obj s a (with_parent oa (w, save_behavior oa))).
    assert (Hw1 : objs s1 !! w = Some ow)
      by (simpl; by rewrite lookup_insert_ne).
    rewrite Hw1.
    assert (Hhop1 : one_hop s1 w = [t]).
    { unfold s1. rewrite one_hop_upd_obj_ne; [done|done|].
      unfold tracker_attr. by rewrite Ha. }
    rewrite Hhop1. cbn [for_each].
    rewrite (bind_eq _ _ s1 s' tt); [done|].
    assert (Ht1 : trackers s1 !! t = Some tr) by done.
    rewrite (register_if_absent_eq _ _ _ _ _ _ Ht1).
    unfold entries_of. rewrite Ht1, Hna'.
    assert (Ha1 : objs s1 !! a = Some (with_parent oa (w, save_behavior oa)))
      by (simpl; apply lookup_insert_eq).
    rewrite (new_dataobject_eq _ _ _ _ _ _ _ Ht1 Ha1). cbn zeta.
    assert (Hor : py_in (rawdatacube tr) (origins_of s1 a) = true).
    { rewrite Hown. unfold s1. rewrite origins_of_upd_obj_eq. simpl.
      rewrite map_app. exact Hlinked. }
    by rewrite Hor.
  - rewrite (new_dataobject_eq _ _ _ _ _ _ _ Ht Ha). cbn zeta.
    rewrite Hown, Hnw'. simpl kw_save_behavior. cbv iota.
    set (s1 := upd_tracker s t (with_entry tr (new_entry tr oa no_kwargs a))).
    assert (Ha1 : objs s1 !! a = Some oa) by done.
    rewrite (new_parent_eq _ _ _ _ _ _ Ha1). cbn zeta.
    replace (origins_of s1 a) with (origins_of s a) by done.
    rewrite Hnw'. simpl default.
    set (s2 := upd_obj s1 a (with_parent oa (w, save_behavior oa))).
    assert (Hw2 : objs s2 !! w = Some ow)
      by (simpl; by rewrite lookup_insert_ne).
    rewrite Hw2.
    assert (Hhop2 : one_hop s2 w = [t]).
    { unfold s2. rewrite one_hop_upd_obj_ne;
        [|done|unfold tracker_attr; by rewrite Ha1].
      by rewrite (one_hop_same_objs s s1). }
    rewrite Hhop2. cbn [for_each].
    rewrite (bind_eq _ _ s2 s' tt); [done|].
    assert (Ht2 : trackers s2 !! t
                  = Some (with_entry tr (new_entry tr oa no_kwargs a)))
      by (simpl; apply lookup_insert_eq).
    rewrite (register_if_absent_eq _ _ _ _ _ _ Ht2).
    unfold entries_of. rewrite Ht2. simpl dataobject_list.
    assert (Hin : py_in a (map e_obj (dataobject_list tr
                             ++ [new_entry tr oa no_kwargs a])) = true).
    { apply py_in_true. rewrite map_app. apply elem_of_app. right. by left. }
    rewrite Hin. done.
Qed.

Lemma registration_paths_agree_witness :
  new_parent 2 1%nat (Some 0%nat) [] no_kwargs two_origins
  = new_dataobject 2 0%nat 1%nat no_kwargs two_origins /\
  snd (new_dataobject 2 0%nat 1%nat no_kwargs two_origins) = Ret tt.
Proof.
  destruct (registration_paths_agree 0 two_origins 1%nat 0%nat 0%nat
              (origin_obj [] (Some 1%nat)) (mkTracker 0%nat []))
    as [H1 H2]; try reflexivity.
  - lia.
  - by eexists.
  - apply (bool_decide_unpack _). vm_compute. exact I.
  - apply (bool_decide_unpack _). vm_compute. exact I.
  - split; [by rewrite H1, H2 | by rewrite H2].
Defined.

(** ** Construction at the two ends *)

(** X14.  Constructing an artifact with [parent=None] always returns: the
    new artifact has the given class, name and save behaviour (True and the
    empty name by default), no parent, the log [[k - 1]] for the logger
    index [k], and no tracker; no registry is touched. *)
Theorem construction_without_parent (fuel : nat) (klass : pyclass)
    (sb : option bool) (nm : option string) (s : store) :
  exists s' a,
    DataObject_init (S fuel) klass None sb nm s = (s', Ret a) /\
    objs s !! a = None /\
    objs s' !! a
    = Some (mkDataObject klass (default true sb) (default "" nm) []
              (Some [log_index s - 1]) None) /\
    trackers s' = trackers s /\
    log_index s' = log_index s.
Proof.
  rewrite DataObject_init_eq. cbn zeta.
  set (a := fresh (dom (objs s))).
  set (o_new := mkDataObject klass _ _ _ _ _).
  assert (Ha0 : objs (upd_obj s a o_new) !! a = Some o_new)
    by (simpl; apply lookup_insert_eq).
  rewrite (new_parent_None _ _ _ _ _ Ha0), Ha0.
  eexists _, a. split; [done|]. split; [apply alloc_obj_fresh|].
  split; [|done]. simpl. by rewrite lookup_insert_eq.
Qed.

(** X15.  Constructing an artifact from a parent [o] fails whenever a
    tracker reached from [o] (its own or one of its parents') is owned by
    something other than [o], as the tracker of the dataset that [o] was
    derived from is: in a state that satisfies the membership invariant the
    constructor never returns, and with three levels of fuel or more it
    raises. *)
Theorem construction_from_derived_parent_raises (fuel : nat)
    (klass : pyclass) (o : ref) (sb : option bool) (nm : option string)
    (s s' : store) (r : outcome ref) (t' : tref) (tr' : DataObjectTracker) :
  registry_invariant s ->
  t' ∈ one_hop s o ->
  trackers s !! t' = Some tr' ->
  rawdatacube tr' <> o ->
  DataObject_init fuel klass (Some o) sb nm s = (s', r) ->
  (forall a, r <> Ret a) /\ ((3 <= fuel)%nat -> exists e, r = Raise e).
Proof.
  intros Hinv Hin Ht' Hown Hrun.
  assert (Hnot : forall a, r <> Ret a).
  { intros a' ->.
    pose proof (DataObject_init_invariant _ _ _ _ _ _ _ _ Hrun Hinv) as Hinv'.
    rewrite DataObject_init_eq in Hrun. cbn zeta in Hrun.
    set (a := fresh (dom (objs s))) in *.
    set (o_new := mkDataObject klass _ _ _ _ _) in *.
    assert (Hfresh : objs s !! a = None) by apply alloc_obj_fresh.
    assert (Hoa : o <> a).
    { intros ->. unfold one_hop, origins_of, parents_of, tracker_attr in Hin.
      rewrite Hfresh in Hin. by apply elem_of_nil in Hin. }
    assert (Ha0 : objs (upd_obj s a o_new) !! a = Some o_new)
      by (simpl; apply lookup_insert_eq).
    destruct fuel as [|fuel]; [done|].
    rewrite (new_parent_eq _ _ _ _ _ _ Ha0) in Hrun. cbn zeta in Hrun.
    rewrite origins_of_upd_obj_eq in Hrun. simpl py_in in Hrun.
    cbv iota in Hrun.
    set (s0' := upd_obj (upd_obj s a o_new) a _) in Hrun.
    assert (Hhop : one_hop s0' o = one_hop s o).
    { unfold s0'. rewrite one_hop_upd_obj_ne;
        [|done|unfold tracker_attr; by rewrite Ha0].
      rewrite one_hop_upd_obj_ne; [done|done|].
      unfold tracker_attr. by rewrite Hfresh. }
    destruct (objs s0' !! o); [|done].
    destruct (for_each _ _ s0') as [s1 r1] eqn:Hloop.
    destruct r1 as [[]|e|]; [|done|done].
    apply for_each_register_effect in Hloop
      as (Hobjs & _ & _ & Hkeep & Hall).
    specialize (Hall eq_refl t'). rewrite Hhop in Hall.
    specialize (Hall Hin).
    assert (Ha1 : objs s1 !! a
                  = Some (with_parent o_new (o, default true sb))).
    { rewrite Hobjs. simpl. apply lookup_insert_eq. }
    rewrite Ha1 in Hrun. injection Hrun as <- <-.
    destruct (Hkeep t' tr' Ht') as (tr1 & Ht1 & Hown1).
    specialize (Hinv' t' tr1 Ht1). simpl in Hinv'.
    unfold entries_of in Hall. rewrite Ht1 in Hall.
    apply list_elem_of_fmap in Hall as (e & He & Hein).
    rewrite Forall_forall in Hinv'. specialize (Hinv' e Hein).
    rewrite <- He in Hinv'. unfold origins_of, parents_of in Hinv'.
    simpl in Hinv'. rewrite lookup_insert_eq in Hinv'. simpl in Hinv'.
    apply list_elem_of_singleton in Hinv'. congruence. }
  split; [done|]. intros Hf.
  destruct fuel as [|[|[|fuel]]]; try lia.
  rewrite DataObject_init_eq in Hrun. cbn zeta in Hrun.
  pose proof (terminates_new_parent fuel (fresh (dom (objs s))) (Some o) []
                (mkKwargs None (Some (default true sb)))
                (upd_obj s (fresh (dom (objs s)))
                   (mkDataObject klass (default true sb) (default "" nm)
                      [] None None))) as Hterm.
  destruct (new_parent _ _ _ _ _ _) as [s1 [[]|e|]].
  - destruct (objs s1 !! _).
    + injection Hrun as _ <-. by destruct (Hnot (fresh (dom (objs s)))).
    + injection Hrun as _ <-. by eexists.
  - injection Hrun as _ <-. by eexists.
  - by destruct Hterm.
Qed.

Lemma registry_invariant_nested_origins : registry_invariant nested_origins.
Proof. apply (bool_decide_unpack _). vm_compute. exact I. Defined.

Lemma construction_from_derived_parent_raises_witness :
  exists e, snd (DataObject_init 3 DiffractionSlice (Some 1%nat) None None
                   nested_origins) = Raise e.
Proof.
  destruct (construction_from_derived_parent_raises 3 DiffractionSlice
              1%nat None None nested_origins
              (fst (DataObject_init 3 DiffractionSlice (Some 1%nat) None
                      None nested_origins))
              (snd (DataObject_init 3 DiffractionSlice (Some 1%nat) None
                      None nested_origins))
              0%nat
              (mkTracker 0%nat [mkEntry 0 "raw" RawDataCube 1%nat])
              registry_invariant_nested_origins) as [_ H].
  - vm_compute. right. left.
  - reflexivity.
  - simpl. lia.
  - reflexivity.
  - apply H. lia.
Defined.

(** ** The membership invariant after a raising registration *)

(** C1 on the code: artifact 2 is constructed with origin 0 in a state that
    satisfies the invariant, and the invariant holds afterwards.
    Registering it in the registry of origin 1 with [save_behavior=False]
    appends the tuple and raises TypeError before the reciprocal link is
    made, and the invariant is false from then on: a further artifact is
    constructed with origin 0, the constructor returns, and the registry of
    origin 1 still lists artifact 2, which does not have origin 1 among its
    parents. *)
Theorem invariant_lost_after_raise :
  let s1 := fst (DataObject_init 2 DataCube (Some 0%nat) (Some true)
                   (Some "dc") two_origins) in
  let s2 := fst (new_dataobject 4 1%nat 2%nat (mkKwargs None (Some false))
                   s1) in
  let x := DataObject_init 2 DataCube (Some 0%nat) None None s2 in
  registry_invariant two_origins /\
  registry_invariant s1 /\
  snd (new_dataobject 4 1%nat 2%nat (mkKwargs None (Some false)) s1)
    = Raise TypeError /\
  ~ registry_invariant s2 /\
  snd x = Ret 3%nat /\
  map e_obj (entries_of (fst x) 1%nat) = [2%nat] /\
  origins_of (fst x) 2%nat = [0%nat] /\
  ~ registry_invariant (fst x).
Proof.
  intros s1 s2 x.
  split; [apply (bool_decide_unpack _); vm_compute; exact I|].
  split; [apply (bool_decide_unpack _); vm_compute; exact I|].
  split; [reflexivity|].
  split; [intros H; apply (bool_decide_pack _) in H; vm_compute in H;
          exact H|].
  split; [reflexivity|]. split; [reflexivity|]. split; [reflexivity|].
  intros H. apply (bool_decide_pack _) in H. vm_compute in H. exact H.
Qed.
